(** * nx_shp: shapefiles to directed graphs and back

    A shallow embedding of [Backend/lib/nx_spatial/readwrite/nx_shp.py]
    ([read_shp], [write_shp] and their nested helpers [getfieldinfo],
    [addlyr], [netgeometry], [create_feature]) together with the
    properties the specification states about them.

    The two functions are Python 2 code that drives two libraries which
    are not part of the module: OGR (the geospatial library) and the
    directed-graph container.  Both are modelled below, each at the place
    where the source calls it; everything else follows the source line
    by line. *)

From stdpp Require Import gmap strings list fin_maps.
From Stdlib Require Import ZArith Ascii.

Local Open Scope string_scope.
Local Open Scope list_scope.
#[local] Set Warnings "-clear-no-such-hyp".

(** ** Python values and exceptions *)

(** Attribute values.  OGR hands back [None], integers and byte strings
    (Python 2 [str], which is also what the three geometry encodings
    are); a graph given to [write_shp] may hold any object, of which the
    code can tell apart only dictionaries (the objects with [has_key])
    from the rest. *)
#[warnings="-register-all"] Inductive value :=
  | VNone
  | VInt (z : Z)
  | VStr (s : string)
  | VDict (d : gmap string value).

(** An attribute mapping: a Python [dict] with string keys. *)
Abbreviation attrs := (gmap string value).

(** The exceptions that can leave the two functions. *)
Inductive exn :=
  | ImportError (msg : string)
  | AttributeError
  | TypeError
  | KeyError
  | LibraryError.

Inductive result (A : Type) :=
  | Ok (a : A)
  | Raise (e : exn).
Arguments Ok {A} a.
Arguments Raise {A} e.

(** Coordinates.  The source uses the pairs of floats that
    [GetPoint_2D] returns and never computes with them: they are only
    hashed and compared as dictionary keys.  They are modelled as pairs
    of integers. *)
Abbreviation coord := (Z * Z)%type.

(** ** The geospatial library (OGR) *)

(** A geometry: its type code and its vertices (2D). *)
Record Geometry := mkGeometry {
  GetGeometryType : Z;
  vertices : list coord
}.

Definition wkbPoint : Z := 1.
Definition wkbLineString : Z := 2.
Definition wkbPolygon : Z := 3.

Definition GetPointCount (g : Geometry) : Z := Z.of_nat (length (vertices g)).

(** [g.GetPoint_2D(i)]: the i-th vertex; an index outside the vertex
    list is refused by the library. *)
Definition GetPoint_2D (g : Geometry) (i : Z) : result coord :=
  if decide (0 ≤ i)%Z then
    match vertices g !! Z.to_nat i with
    | Some p => Ok p
    | None => Raise LibraryError
    end
  else Raise LibraryError.

(** [ogr.Geometry(type)]: a new geometry without vertices. *)
Definition new_Geometry (ty : Z) : Geometry := mkGeometry ty [].

(** [geom.SetPoint(i, x, y)]: sets vertex [i], growing the vertex list
    (with origin points) when [i] is past its end. *)
Definition SetPoint (g : Geometry) (i : nat) (p : coord) : Geometry :=
  let vs := vertices g in
  mkGeometry (GetGeometryType g)
    (if decide (i < length vs)%nat then <[i := p]> vs
     else vs ++ replicate (i - length vs) (0, 0)%Z ++ [p]).

(** The serialisations of a geometry.  They are the library's own; the
    development is parametric in them. *)
Class OgrCodec := {
  ExportToWkb : Geometry → string;
  ExportToWkt : Geometry → string;
  ExportToJson : Geometry → string;
  CreateGeometryFromWkb : string → option Geometry;
  CreateGeometryFromWkt : string → option Geometry
}.

(** A feature: its field values, in the order of the layer's schema, and
    its geometry ([f.geometry()] is [None] for a feature without one). *)
Record Feature := mkFeature {
  fvalues : list value;
  geometry : option Geometry
}.

(** A layer: its name, its schema (the field names, in order) and its
    features, in the order of their feature index. *)
Record Layer := mkLayer {
  GetName : string;
  schema : list string;
  features : list Feature
}.

(** A data source is a sequence of layers: one for a single shapefile,
    one per shapefile for a directory. *)
Abbreviation DataSource := (list Layer).

(** [f.GetFieldIndex(x)]: the index of the first field named [x] in the
    feature's definition (its layer's schema), [-1] when there is none. *)
Fixpoint index_of (x : string) (l : list string) : option nat :=
  match l with
  | [] => None
  | y :: l' => if decide (x = y) then Some 0%nat else S <$> index_of x l'
  end.

Definition GetFieldIndex (lyr : Layer) (x : string) : Z :=
  match index_of x (schema lyr) with
  | Some i => Z.of_nat i
  | None => (-1)%Z
  end.

(** [f.GetField(i)]: the value of field [i]; a field the feature holds
    no value for reads as [None]. *)
Definition GetField (f : Feature) (i : Z) : value :=
  if decide (0 ≤ i)%Z then default VNone (fvalues f !! Z.to_nat i) else VNone.

(** ** The graph container *)

(** A directed graph: the attribute mapping of every node ([G.node]) and
    of every edge, keyed by (source, target). *)
Record DiGraph := mkDiGraph {
  node : gmap coord attrs;
  edge : gmap (coord * coord) attrs
}.

(** [nx.DiGraph()] *)
Definition empty_DiGraph : DiGraph := mkDiGraph ∅ ∅.

(** Modelled from the spec: the container's [add_node], which is not in
    the module.  "add a node keyed by the 2D point coordinate, with the
    attribute mapping as its data. If the coordinate already exists as a
    node, its attributes are fully replaced (no merge)." *)
Definition DiGraph_add_node (n : coord) (a : attrs) (G : DiGraph) : DiGraph :=
  mkDiGraph (<[n := a]> (node G)) (edge G).

(** The endpoint of a new edge becomes a node, with an empty attribute
    mapping, unless it is one already. *)
Definition touch_node (n : coord) (nodes : gmap coord attrs) : gmap coord attrs :=
  match nodes !! n with
  | Some _ => nodes
  | None => <[n := ∅]> nodes
  end.

(** Modelled from the spec: the container's [add_edge], which is not in
    the module.  "Add a directed edge from the first to the last
    coordinate with this attribute mapping. If an edge with the same
    (source, target) pair already exists, its attributes are fully
    replaced." *)
Definition DiGraph_add_edge (u v : coord) (a : attrs) (G : DiGraph) : DiGraph :=
  mkDiGraph (touch_node v (touch_node u (node G))) (<[(u, v) := a]> (edge G)).

(** ** The state the two functions run in *)

(** What the library is asked to do with the file system. *)
Inductive Access :=
  | AOpen (path : string)
  | ACreateDataSource (path : string)
  | ACreateLayer (path name : string)
  | ACreateFeature (path : string) (layer : nat).

Record State := mkState {
  graph : DiGraph;               (* the graph object in scope: [net], [G] *)
  ogr_importable : bool;         (* does [from osgeo import ogr] succeed *)
  fs : gmap string DataSource;   (* the data sources on disk, by path *)
  trace : list Access            (* the accesses made so far, latest first *)
}.

(** Computations: they read and change the state and either return or
    raise; what was done before a raise stays done. *)
Definition M (A : Type) : Type := State → result A * State.

Definition ret {A} (a : A) : M A := λ s, (Ok a, s).
Definition raise {A} (e : exn) : M A := λ s, (Raise e, s).
Definition bind {A B} (c : M A) (k : A → M B) : M B :=
  λ s, match c s with
       | (Ok a, s') => k a s'
       | (Raise e, s') => (Raise e, s')
       end.

Declare Scope py_scope.
Delimit Scope py_scope with py.
Notation "x <- c ;; k" := (bind c (λ x, k))
  (at level 100, c at next level, right associativity) : py_scope.
Notation "c ;;; k" := (bind c (λ _, k))
  (at level 100, right associativity) : py_scope.
Local Open Scope py_scope.

Definition lift {A} (r : result A) : M A := λ s, (r, s).
Definition gets {A} (f : State → A) : M A := λ s, (Ok (f s), s).
Definition modify (f : State → State) : M unit := λ s, (Ok tt, f s).

(** [for x in l: body(x)] *)
Fixpoint for_each {A} (l : list A) (body : A → M unit) : M unit :=
  match l with
  | [] => ret tt
  | x :: l' => body x ;;; for_each l' body
  end.

Definition set_graph (G : DiGraph) (s : State) : State :=
  mkState G (ogr_importable s) (fs s) (trace s).
Definition set_fs (d : gmap string DataSource) (s : State) : State :=
  mkState (graph s) (ogr_importable s) d (trace s).
Definition log (a : Access) (s : State) : State :=
  mkState (graph s) (ogr_importable s) (fs s) (a :: trace s).

(** [from osgeo import ogr] inside [try], [ImportError] re-raised with
    the function's own message. *)
Definition import_ogr (msg : string) : M unit :=
  λ s, if ogr_importable s then (Ok tt, s) else (Raise (ImportError msg), s).

Definition add_node (n : coord) (a : attrs) : M unit :=
  modify (λ s, set_graph (DiGraph_add_node n a (graph s)) s).
Definition add_edge (u v : coord) (a : attrs) : M unit :=
  modify (λ s, set_graph (DiGraph_add_edge u v a (graph s)) s).

(** [ogr.Open(path)]: the data source at [path]; a path that holds none
    is the library's error. *)
Definition ogr_Open (path : string) : M DataSource :=
  modify (log (AOpen path)) ;;;
  d <- gets fs ;;
  match d !! path with
  | Some shp => ret shp
  | None => raise LibraryError
  end.

(** ** read_shp *)

(** The argument of [read_shp]: a [str], or any other object (an open
    file, a [unicode] string, ...). *)
Inductive pyarg :=
  | PyStr (s : string)
  | PyOther.

(** [dict(pairs)]: entries are set from left to right, so that of two
    entries with one key the later stays. *)
Definition dict (pairs : list (string * value)) : attrs :=
  fold_left (λ d kv, <[kv.1 := kv.2]> d) pairs ∅.

Section with_codec.
Context {codec : OgrCodec}.

(** [getfieldinfo]: the value of every field of [flds], looked up by the
    field's index. *)
Definition getfieldinfo (lyr : Layer) (feature : Feature) (flds : list string)
  : list value :=
  let f := feature in
  map (λ x, GetField f (GetFieldIndex lyr x)) flds.

(** The attribute mapping of a feature before its geometry is looked
    at: lines 68 to 71. *)
Definition feature_attributes (lyr : Layer) (fields : list string) (f : Feature)
  : attrs :=
  let flddata := getfieldinfo lyr f fields in
  let attributes := dict (zip fields flddata) in
  <["ShpName" := VStr (GetName lyr)]> attributes.

(** The three encodings a line feature gets on top: lines 75 to 77. *)
Definition line_attributes (g : Geometry) (attributes : attrs) : attrs :=
  let attributes := <["Wkb" := VStr (ExportToWkb g)]> attributes in
  let attributes := <["Wkt" := VStr (ExportToWkt g)]> attributes in
  <["Json" := VStr (ExportToJson g)]> attributes.

(** The body of the loop of [addlyr], for one feature.  [f.geometry()]
    is [None] for a feature without geometry, and the first method
    called on it, [GetGeometryType], then fails. *)
Definition addlyr_feature (lyr : Layer) (fields : list string) (f : Feature)
  : M unit :=
  let attributes := feature_attributes lyr fields f in
  match geometry f with
  | None => raise AttributeError
  | Some g =>
      (if decide (GetGeometryType g = wkbPoint) then
         p <- lift (GetPoint_2D g 0) ;;
         add_node p attributes
       else ret tt) ;;;
      if decide (GetGeometryType g = wkbLineString) then
        let attributes := line_attributes g attributes in
        let last := (GetPointCount g - 1)%Z in
        u <- lift (GetPoint_2D g 0) ;;
        v <- lift (GetPoint_2D g last) ;;
        add_edge u v attributes
      else ret tt
  end.

Definition addlyr (lyr : Layer) (fields : list string) : M unit :=
  for_each (features lyr) (addlyr_feature lyr fields).

Definition read_shp (path : pyarg) : M DiGraph :=
  import_ogr "read_shp requires OGR: http://www.gdal.org/" ;;;
  modify (set_graph empty_DiGraph) ;;;                (* net = nx.DiGraph() *)
  match path with
  | PyStr path =>                                     (* isinstance(path, str) *)
      shp <- ogr_Open path ;;
      for_each shp (λ lyr,
        let flds := schema lyr in
        addlyr lyr flds)
  | PyOther => ret tt
  end ;;;
  gets graph.                                         (* return net *)

(** ** write_shp *)

(** The key [netgeometry] is given: a node (one coordinate tuple) or an
    edge (a tuple of two coordinate tuples). *)
Inductive pykey :=
  | NodeKey (n : coord)
  | EdgeKey (e : coord * coord).

(** [type(key[0])]: a float for a node key, a tuple for an edge key. *)
Inductive pytype := float_type | tuple_type.

Definition type_key0 (key : pykey) : pytype :=
  match key with
  | NodeKey _ => float_type
  | EdgeKey _ => tuple_type
  end.

(** [type(x) == 'tuple']: a type object compared with a [str].  Objects
    of different types are unequal in Python, whatever the type is. *)
Definition type_eq_str (t : pytype) (label : string) : bool := false.

(** [geom.SetPoint(i, *args)]: [args] has to unpack into numbers.  A
    coordinate tuple does; a tuple of two coordinate tuples hands the
    binding tuples where it takes doubles. *)
Definition SetPoint_unpack (g : Geometry) (i : nat) (args : pykey)
  : result Geometry :=
  match args with
  | NodeKey p => Ok (SetPoint g i p)
  | EdgeKey _ => Raise TypeError
  end.

(** [ogr.CreateGeometryFromWkb(v)] and [ogr.CreateGeometryFromWkt(v)]
    on an attribute value: only a string can be decoded, and only a
    well-formed one gives a geometry. *)
Definition decode_with (decode : string → option Geometry) (v : value)
  : result Geometry :=
  match v with
  | VStr s => from_option Ok (Raise LibraryError) (decode s)
  | _ => Raise TypeError
  end.

(** [data.has_key(k)]: only a dictionary has the method. *)
Definition has_key (data : value) (k : string) : result bool :=
  match data with
  | VDict d => Ok (bool_decide (is_Some (d !! k)))
  | _ => Raise AttributeError
  end.

(** [data[k]] for a dictionary [data] that has the key. *)
Definition getitem (data : value) (k : string) : value :=
  match data with
  | VDict d => default VNone (d !! k)
  | _ => VNone
  end.

(** [netgeometry]: the geometry of a node or an edge, from the stored
    binary encoding, else from the stored text encoding, else from the
    key. *)
Definition netgeometry (key : pykey) (data : value) : result Geometry :=
  match has_key data "Wkb" with
  | Raise e => Raise e
  | Ok true => decode_with CreateGeometryFromWkb (getitem data "Wkb")
  | Ok false =>
  match has_key data "Wkt" with
  | Raise e => Raise e
  | Ok true => decode_with CreateGeometryFromWkt (getitem data "Wkt")
  | Ok false =>
  if type_eq_str (type_key0 key) "tuple" then  (* edge keys are packed tuples *)
    let geom := new_Geometry wkbLineString in
    match key with
    | EdgeKey (_from, _to) =>
        Ok (SetPoint (SetPoint geom 0 _from) 1 _to)
    | NodeKey _ => Raise TypeError    (* [*_from] of a float *)
    end
  else
    let geom := new_Geometry wkbPoint in
    SetPoint_unpack geom 0 key
  end end.

(** [drv.CreateDataSource(outdir)]: a new, empty data source; the
    output directory "must not already exist", so a path that is taken
    is the library's error. *)
Definition CreateDataSource (outdir : string) : M unit :=
  modify (log (ACreateDataSource outdir)) ;;;
  d <- gets fs ;;
  match d !! outdir with
  | Some _ => raise LibraryError
  | None => modify (set_fs (<[outdir := []]> d))
  end.

(** [shpdir.CreateLayer(name, None, type)]: a new layer without fields
    and features, after the layers there are; the handle returned is the
    layer's index in its data source. *)
Definition CreateLayer (shpdir name : string) : M nat :=
  modify (log (ACreateLayer shpdir name)) ;;;
  d <- gets fs ;;
  match d !! shpdir with
  | Some shp =>
      modify (set_fs (<[shpdir := shp ++ [mkLayer name [] []]]> d)) ;;;
      ret (length shp)
  | None => raise LibraryError
  end.

Definition Layer_add (f : Feature) (lyr : Layer) : Layer :=
  mkLayer (GetName lyr) (schema lyr) (features lyr ++ [f]).

(** [lyr.CreateFeature(feature)] *)
Definition CreateFeature (shpdir : string) (lyr : nat) (f : Feature) : M unit :=
  modify (log (ACreateFeature shpdir lyr)) ;;;
  modify (λ s, set_fs (alter (alter (Layer_add f) lyr) shpdir (fs s)) s).

(** [create_feature]: a feature of the layer's definition (no field is
    ever declared, so it has no values) with the geometry [g] of the
    enclosing scope, which is the geometry the caller has just built. *)
Definition create_feature (g : Geometry) (shpdir : string) (lyr : nat) : M unit :=
  let feature := mkFeature [] (Some g) in
  CreateFeature shpdir lyr feature.

(** [d.values()].  Python 2 leaves the order of a dictionary open; here
    it is the order of [map_to_list], and no property below depends on
    which order it is.  The same holds for the order in which
    [for n in G] and [G.edges()] go through the graph. *)
Definition values (d : attrs) : list value := (map_to_list d).*2.

(** [G.node[n]] *)
Definition G_node (n : coord) : M attrs :=
  G <- gets graph ;;
  match node G !! n with
  | Some a => ret a
  | None => raise KeyError
  end.

(** [G.get_edge_data(u, v)]: the edge's attribute dictionary, [None]
    for a pair that is no edge. *)
Definition G_get_edge_data (e : coord * coord) : M value :=
  G <- gets graph ;;
  ret (from_option VDict VNone (edge G !! e)).

(** [data[0]] of [data = G.node[n].values() or [{}]] *)
Definition values_or_empty (a : attrs) : value :=
  match values a with
  | [] => VDict ∅
  | v :: _ => v
  end.

(** [write_shp(G, outdir)], with [G] the graph of the state. *)
Definition write_shp (outdir : string) : M unit :=
  import_ogr "write_shp requires OGR: http://www.gdal.org/" ;;;
  CreateDataSource outdir ;;;
  nodes <- CreateLayer outdir "nodes" ;;
  ns <- gets (λ s, (map_to_list (node (graph s))).*1) ;;
  for_each ns (λ n,
    a <- G_node n ;;
    let data0 := values_or_empty a in
    g <- lift (netgeometry (NodeKey n) data0) ;;
    create_feature g outdir nodes) ;;;
  edges <- CreateLayer outdir "edges" ;;
  es <- gets (λ s, (map_to_list (edge (graph s))).*1) ;;
  for_each es (λ e,
    data <- G_get_edge_data e ;;
    g <- lift (netgeometry (EdgeKey e) data) ;;
    create_feature g outdir edges).

End with_codec.

(** ** A concrete codec

    The theorems below hold for every codec.  Where one is run on a
    concrete input a codec is needed that computes: this one writes the
    binary digits of a number that stands for the geometry. *)

Definition Geometry_to_pair (g : Geometry) : Z * list coord :=
  (GetGeometryType g, vertices g).
Definition Geometry_of_pair (p : Z * list coord) : Geometry :=
  mkGeometry p.1 p.2.

#[global] Instance Geometry_eq_dec : EqDecision Geometry.
Proof. solve_decision. Defined.

#[global] Instance Geometry_countable : Countable Geometry.
Proof.
  apply (inj_countable' Geometry_to_pair Geometry_of_pair).
  intros []; reflexivity.
Defined.

Fixpoint digits (p : positive) : string :=
  match p with
  | xH => ""
  | xO p => String "0"%char (digits p)
  | xI p => String "1"%char (digits p)
  end.

Fixpoint undigits (s : string) : option positive :=
  match s with
  | "" => Some xH
  | String c s =>
      if decide (c = "0"%char) then xO <$> undigits s
      else if decide (c = "1"%char) then xI <$> undigits s
      else None
  end.

Definition digits_encode (tag : string) (g : Geometry) : string :=
  tag +:+ digits (encode g).

Definition digits_decode (s : string) : option Geometry :=
  match s with
  | String _ s => undigits s ≫= decode
  | "" => None
  end.

Definition digits_codec : OgrCodec := {|
  ExportToWkb := digits_encode "b";
  ExportToWkt := digits_encode "t";
  ExportToJson := digits_encode "j";
  CreateGeometryFromWkb := digits_decode;
  CreateGeometryFromWkt := digits_decode
|}.

(** ** Predicates the properties are stated with *)

(** A computation leaves a component of the state as it found it,
    whether it returns or raises. *)
Definition preserves {A B} (proj : State → B) (c : M A) : Prop :=
  ∀ s, proj (c s).2 = proj s.

(** The feature is a point feature at coordinate [c]. *)
Definition point_at (c : coord) (f : Feature) : Prop :=
  ∃ g, geometry f = Some g ∧ GetGeometryType g = wkbPoint
       ∧ GetPoint_2D g 0 = Ok c.

(** The value of the schema field named [x] on feature [f]. *)
Definition field_value (lyr : Layer) (f : Feature) (x : string) : value :=
  GetField f (GetFieldIndex lyr x).

(** The state after [lyr.CreateFeature(f)] on layer [lyr] of the data
    source at [shpdir]. *)
Definition written (shpdir : string) (lyr : nat) (f : Feature) (s : State)
  : State :=
  let s := log (ACreateFeature shpdir lyr) s in
  set_fs (alter (alter (Layer_add f) lyr) shpdir (fs s)) s.

(** The feature [write_shp] makes of a geometry. *)
Definition geometry_feature (g : Geometry) : Feature := mkFeature [] (Some g).

(** The point geometry at a coordinate. *)
Definition point_geometry (n : coord) : Geometry := mkGeometry wkbPoint [n].

Section line_graphs.
Context {codec : OgrCodec}.

(** Decoding gives back the geometry that was encoded. *)
Definition wkb_round_trip : Prop :=
  ∀ g, CreateGeometryFromWkb (ExportToWkb g) = Some g.

(** The graphs [read_shp] builds from line features alone: no node has
    attributes, every edge carries the three encodings of a line string
    that runs from its source to its target, and the ends of every edge
    are nodes. *)
Record line_graph (G : DiGraph) : Prop := {
  line_graph_nodes : ∀ n a, node G !! n = Some a → a = ∅;
  line_graph_edges : ∀ u v a, edge G !! (u, v) = Some a →
    ∃ g, a !! "Wkb" = Some (VStr (ExportToWkb g))
       ∧ a !! "Wkt" = Some (VStr (ExportToWkt g))
       ∧ a !! "Json" = Some (VStr (ExportToJson g))
       ∧ GetGeometryType g = wkbLineString
       ∧ GetPoint_2D g 0 = Ok u
       ∧ GetPoint_2D g (GetPointCount g - 1) = Ok v;
  line_graph_ends : ∀ u v, is_Some (edge G !! (u, v)) →
    is_Some (node G !! u) ∧ is_Some (node G !! v)
}.

(** The geometry the binary encoding of an edge decodes to. *)
Definition stored_geometry (G : DiGraph) (e : coord * coord) : Geometry :=
  default (new_Geometry 0)
    (a ← edge G !! e; v ← a !! "Wkb";
     match v with VStr w => CreateGeometryFromWkb w | _ => None end).

(** Every feature of the data source is a line string with a vertex. *)
Definition line_source (shp : DataSource) : Prop :=
  ∀ lyr f, lyr ∈ shp → f ∈ features lyr →
    ∃ p ps, geometry f = Some (mkGeometry wkbLineString (p :: ps)).

End line_graphs.

(** ** Concrete inputs *)

Definition origin : coord := (0, 0)%Z.
Definition p11 : coord := (1, 1)%Z.
Definition p22 : coord := (2, 2)%Z.

(** A state with the library installed and nothing on disk. *)
Definition fresh (G : DiGraph) : State := mkState G true ∅ [].
(** The same without the library. *)
Definition no_ogr (G : DiGraph) : State := mkState G false ∅ [].

(** [G.add_edge((0,0), (1,1))]: an edge without attributes. *)
Definition bare_edge_graph : DiGraph :=
  DiGraph_add_edge origin p11 ∅ empty_DiGraph.

(** [G.add_node((0,0), {'ShpName': 'pts'})]: a node as [read_shp] makes
    it from a point feature of a layer without fields. *)
Definition point_graph : DiGraph :=
  DiGraph_add_node origin {["ShpName" := VStr "pts"]} empty_DiGraph.

(** A line shapefile [roads] with one field and one feature, a segment
    without vertices in between. *)
Definition segment : Geometry := mkGeometry wkbLineString [origin; p11].
Definition roads : Layer :=
  mkLayer "roads" ["name"] [mkFeature [VStr "a"] (Some segment)].

(** A line with a vertex in between. *)
Definition bent_line : Geometry := mkGeometry wkbLineString [origin; p11; p22].

(** Two point shapefiles with different fields and a point each, both
    at the origin. *)
Definition origin_point : Geometry := mkGeometry wkbPoint [origin].
Definition wells : Layer :=
  mkLayer "wells" ["depth"] [mkFeature [VInt 7] (Some origin_point)].
Definition towns : Layer :=
  mkLayer "towns" ["name"] [mkFeature [VStr "x"] (Some origin_point)].

(** A polygon feature. *)
Definition polygon_feature : Feature :=
  mkFeature [] (Some (mkGeometry wkbPolygon [])).

(** The disk with the library installed and one data source on it. *)
Definition disk (path : string) (shp : DataSource) : State :=
  mkState empty_DiGraph true {[path := shp]} [].

(** Reading two point layers with a point each at the origin. *)
Definition two_points_read : result DiGraph * State :=
  @read_shp digits_codec (PyStr "pts") (disk "pts" [wells; towns]).

(** Reading [roads], writing the graph to a fresh directory and reading
    the directory back. *)
Definition roads_read : result DiGraph * State :=
  @read_shp digits_codec (PyStr "in") (disk "in" [roads]).
Definition roads_written : result unit * State :=
  @write_shp digits_codec "out" roads_read.2.
Definition roads_read_back : result DiGraph * State :=
  @read_shp digits_codec (PyStr "out") roads_written.2.

(** Reading a line shapefile whose one line has a vertex in between. *)
Definition bends : Layer :=
  mkLayer "bends" [] [mkFeature [] (Some bent_line)].
Definition bends_read : result DiGraph * State :=
  @read_shp digits_codec (PyStr "in") (disk "in" [bends]).

(** ** Equality of graphs up to the encodings *)

Definition strip_encodings (a : attrs) : attrs :=
  delete "Json" (delete "Wkt" (delete "Wkb" a)).

(** The same nodes with the same attributes, and the same edges with the
    same attributes when the three encodings are left out. *)
Definition same_up_to_encodings (G G' : DiGraph) : Prop :=
  node G' = node G
  ∧ strip_encodings <$> edge G' = strip_encodings <$> edge G.

(** ** Predicates for the further properties *)

(** The feature is a line feature that runs from [e.1] to [e.2]. *)
Definition line_from_to (e : coord * coord) (f : Feature) : Prop :=
  ∃ g, geometry f = Some g ∧ GetGeometryType g = wkbLineString
       ∧ GetPoint_2D g 0 = Ok e.1
       ∧ GetPoint_2D g (GetPointCount g - 1) = Ok e.2.

(** The feature belongs to a layer of the data source. *)
Definition feature_of (shp : DataSource) (f : Feature) : Prop :=
  ∃ lyr, lyr ∈ shp ∧ f ∈ features lyr.

(** Both ends of every edge are nodes. *)
Definition ends_are_nodes (G : DiGraph) : Prop :=
  ∀ u v, is_Some (edge G !! (u, v)) →
         is_Some (node G !! u) ∧ is_Some (node G !! v).

(** The feature makes [n] a node: it is a point feature at [n] or a
    line feature with [n] at one end. *)
Definition node_from (n : coord) (f : Feature) : Prop :=
  point_at n f ∨ ∃ e, line_from_to e f ∧ (n = e.1 ∨ n = e.2).

Section written_features.
Context {codec : OgrCodec}.

(** The geometry of a result of [netgeometry] that is one. *)
Definition geometry_or_empty (r : result Geometry) : Geometry :=
  match r with
  | Ok g => g
  | Raise _ => new_Geometry 0
  end.

(** The feature [write_shp] creates for node [n] of [G], and for edge
    [e] of [G], when [netgeometry] gives it a geometry. *)
Definition node_feature (G : DiGraph) (n : coord) : Feature :=
  geometry_feature
    (geometry_or_empty
       (netgeometry (NodeKey n) (values_or_empty (default ∅ (node G !! n))))).
Definition edge_feature (G : DiGraph) (e : coord * coord) : Feature :=
  geometry_feature
    (geometry_or_empty
       (netgeometry (EdgeKey e) (from_option VDict VNone (edge G !! e)))).

End written_features.

(** A mapping with both encodings of [segment], and one with the text
    encoding only. *)
Definition both_encodings : attrs :=
  <["Wkb" := VStr (@ExportToWkb digits_codec segment)]>
    {["Wkt" := VStr (@ExportToWkt digits_codec bent_line)]}.
Definition text_encoding : attrs :=
  {["Wkt" := VStr (@ExportToWkt digits_codec bent_line)]}.

(** The mapping [read_shp] leaves on the edge of [bends]. *)
Definition bends_edge_attributes : attrs :=
  @line_attributes digits_codec bent_line
    (feature_attributes bends [] (mkFeature [] (Some bent_line))).

(** The claim about the attribute mapping, read to the letter: the
    mapping has one entry per field of the schema and [synthetic] more,
    and the entry under a field's name is the value of that field. *)
Definition one_entry_per_field (lyr : Layer) (f : Feature) (synthetic : nat)
    (a : attrs) : Prop :=
  size a = (length (schema lyr) + synthetic)%nat
  ∧ ∀ i x, schema lyr !! i = Some x →
           a !! x = Some (default VNone (fvalues f !! i)).

(** A point layer with a field called [ShpName], a point layer with two
    fields of one name, and a line layer with a field called [Wkb]. *)
Definition named_feature : Feature := mkFeature [VStr "v"] (Some origin_point).
Definition named : Layer := mkLayer "pts" ["ShpName"] [named_feature].
Definition twice_feature : Feature :=
  mkFeature [VInt 1; VInt 2] (Some origin_point).
Definition twice : Layer := mkLayer "pts" ["a"; "a"] [twice_feature].
Definition coded_feature : Feature := mkFeature [VStr "v"] (Some segment).
Definition coded : Layer := mkLayer "lines" ["Wkb"] [coded_feature].

(** Reading each of them with [read_shp]. *)
Definition named_read : result DiGraph * State :=
  @read_shp digits_codec (PyStr "in") (disk "in" [named]).
Definition twice_read : result DiGraph * State :=
  @read_shp digits_codec (PyStr "in") (disk "in" [twice]).
Definition coded_read : result DiGraph * State :=
  @read_shp digits_codec (PyStr "in") (disk "in" [coded]).

(** A feature without geometry. *)
Definition bare_feature : Feature := mkFeature [VStr "x"] None.

(** A disk with the library installed and the path [out] taken. *)
Definition taken : State :=
  mkState bare_edge_graph true {["out" := [roads]]} [].

(** ** Running computations *)

Lemma bind_Ok {A B} (c : M A) (k : A → M B) s a s' :
  c s = (Ok a, s') → bind c k s = k a s'.
Proof. intros E. unfold bind. rewrite E. reflexivity. Qed.

Lemma bind_Raise {A B} (c : M A) (k : A → M B) s e s' :
  c s = (Raise e, s') → bind c k s = (Raise e, s').
Proof. intros E. unfold bind. rewrite E. reflexivity. Qed.

Lemma bind_gets {A B} (f : State → A) (k : A → M B) s :
  bind (gets f) k s = k (f s) s.
Proof. reflexivity. Qed.

Lemma for_each_app {A} (l1 l2 : list A) (body : A → M unit) s :
  for_each (l1 ++ l2) body s =
  bind (for_each l1 body) (λ _, for_each l2 body) s.
Proof.
  revert s. induction l1 as [|x l1 IH]; intros s; simpl; unfold bind in *.
  - reflexivity.
  - destruct (body x s) as [[[]|e] s1]; [apply IH | reflexivity].
Qed.

(** *** Frame rules for [preserves] *)

Lemma preserves_ret {A B} (proj : State → B) (a : A) : preserves proj (ret a).
Proof. intros s. reflexivity. Qed.

Lemma preserves_raise {A B} (proj : State → B) e : preserves proj (@raise A e).
Proof. intros s. reflexivity. Qed.

Lemma preserves_lift {A B} (proj : State → B) (r : result A) :
  preserves proj (lift r).
Proof. intros s. reflexivity. Qed.

Lemma preserves_gets {A B} (proj : State → B) (f : State → A) :
  preserves proj (gets f).
Proof. intros s. reflexivity. Qed.

Lemma preserves_modify {B} (proj : State → B) (f : State → State) :
  (∀ s, proj (f s) = proj s) → preserves proj (modify f).
Proof. intros Hf s. apply Hf. Qed.

Lemma preserves_bind {A B C} (proj : State → C) (c : M A) (k : A → M B) :
  preserves proj c → (∀ a, preserves proj (k a)) → preserves proj (bind c k).
Proof.
  intros Hc Hk s. unfold bind. specialize (Hc s).
  destruct (c s) as [[a|e] s1]; simpl in *.
  - rewrite Hk. exact Hc.
  - exact Hc.
Qed.

Lemma preserves_for_each {A B} (proj : State → B) (l : list A) body :
  (∀ x, preserves proj (body x)) → preserves proj (for_each l body).
Proof.
  intros Hb. induction l as [|x l IH]; simpl.
  - apply preserves_ret.
  - apply preserves_bind; [apply Hb | intros _; exact IH].
Qed.

Lemma preserves_import_ogr {B} (proj : State → B) msg :
  preserves proj (import_ogr msg).
Proof. intros s. unfold import_ogr. destruct (ogr_importable s); reflexivity. Qed.

Lemma preserves_match_option {A B C} (proj : State → C) (o : option A)
    (k : A → M B) (d : M B) :
  (∀ a, preserves proj (k a)) → preserves proj d →
  preserves proj (match o with Some a => k a | None => d end).
Proof. intros Hk Hd. destruct o; [apply Hk | exact Hd]. Qed.

Section properties.
Context {codec : OgrCodec}.

(** *** The library calls of [write_shp] leave the graph alone *)

Lemma CreateDataSource_graph outdir : preserves graph (CreateDataSource outdir).
Proof.
  unfold CreateDataSource.
  apply preserves_bind; [by apply preserves_modify|intros _].
  apply preserves_bind; [apply preserves_gets|intros d].
  apply preserves_match_option; [intros _; apply preserves_raise|].
  by apply preserves_modify.
Qed.

Lemma CreateLayer_graph shpdir name : preserves graph (CreateLayer shpdir name).
Proof.
  unfold CreateLayer.
  apply preserves_bind; [by apply preserves_modify|intros _].
  apply preserves_bind; [apply preserves_gets|intros d].
  apply preserves_match_option; [intros shp|apply preserves_raise].
  apply preserves_bind; [by apply preserves_modify|intros _].
  apply preserves_ret.
Qed.

Lemma create_feature_graph g shpdir lyr :
  preserves graph (create_feature g shpdir lyr).
Proof.
  unfold create_feature, CreateFeature.
  apply preserves_bind; [by apply preserves_modify|intros _].
  by apply preserves_modify.
Qed.

Lemma G_node_graph n : preserves graph (G_node n).
Proof.
  unfold G_node. apply preserves_bind; [apply preserves_gets|intros G].
  apply preserves_match_option; [intros a; apply preserves_ret|].
  apply preserves_raise.
Qed.

Lemma G_get_edge_data_graph e : preserves graph (G_get_edge_data e).
Proof.
  unfold G_get_edge_data.
  apply preserves_bind; [apply preserves_gets|intros G]. apply preserves_ret.
Qed.

(** C8: [write_shp] never changes the graph it is given: the graph of
    the state after the call, with its node set, edge set and every
    attribute mapping, is the graph of the state before it, whether the
    call returns or raises, for every graph and output path. *)
Theorem write_shp_graph_unchanged (outdir : string) (s : State) :
  graph (write_shp outdir s).2 = graph s.
Proof.
  revert s. change (preserves graph (write_shp outdir)). unfold write_shp.
  apply preserves_bind; [apply preserves_import_ogr|intros _].
  apply preserves_bind; [apply CreateDataSource_graph|intros _].
  apply preserves_bind; [apply CreateLayer_graph|intros nodes].
  apply preserves_bind; [apply preserves_gets|intros ns].
  apply preserves_bind.
  { apply preserves_for_each. intros n.
    apply preserves_bind; [apply G_node_graph|intros a].
    apply preserves_bind; [apply preserves_lift|intros g].
    apply create_feature_graph. }
  intros _.
  apply preserves_bind; [apply CreateLayer_graph|intros edges].
  apply preserves_bind; [apply preserves_gets|intros es].
  apply preserves_for_each. intros e.
  apply preserves_bind; [apply G_get_edge_data_graph|intros data].
  apply preserves_bind; [apply preserves_lift|intros g].
  apply create_feature_graph.
Qed.

(** C2: without the geospatial library both functions raise the import
    error at once, for every argument: the state after the call is the
    state before it, so nothing on disk was read or written and no
    access was made. *)
Theorem missing_library_raises_first (path : pyarg) (outdir : string) (s : State) :
  ogr_importable s = false →
  read_shp path s
    = (Raise (ImportError "read_shp requires OGR: http://www.gdal.org/"), s)
  ∧ write_shp outdir s
    = (Raise (ImportError "write_shp requires OGR: http://www.gdal.org/"), s).
Proof.
  intros Hno. split.
  - unfold read_shp. apply bind_Raise. unfold import_ogr. by rewrite Hno.
  - unfold write_shp. apply bind_Raise. unfold import_ogr. by rewrite Hno.
Qed.

(** C10, as amended: when the geospatial library can be imported,
    [read_shp] of an argument that is not a string returns the empty
    graph; it does not raise, and apart from the new graph the state is
    the one before the call: no access to the file system is made. *)
Theorem read_shp_not_a_string (s : State) :
  ogr_importable s = true →
  read_shp PyOther s = (Ok empty_DiGraph, set_graph empty_DiGraph s).
Proof.
  intros Hyes. unfold read_shp, bind, import_ogr. rewrite Hyes. reflexivity.
Qed.

(** *** One feature of [addlyr] *)

Lemma wkbPoint_not_LineString : wkbPoint ≠ wkbLineString.
Proof. discriminate. Qed.

Lemma GetPoint_2D_first g p ps :
  vertices g = p :: ps → GetPoint_2D g 0 = Ok p.
Proof. intros Hv. unfold GetPoint_2D. rewrite Hv. reflexivity. Qed.

Lemma GetPoint_2D_last g vs q :
  vertices g = vs → last vs = Some q →
  GetPoint_2D g (GetPointCount g - 1) = Ok q.
Proof.
  intros Hv Hq. unfold GetPoint_2D, GetPointCount. rewrite Hv.
  rewrite last_lookup in Hq.
  destruct vs as [|p ps]; [discriminate|].
  rewrite decide_True by (simpl; lia).
  replace (Z.to_nat (Z.of_nat (length (p :: ps)) - 1)) with (pred (length (p :: ps)))
    by (simpl; lia).
  rewrite Hq. reflexivity.
Qed.

Lemma addlyr_feature_point lyr fields f g c s :
  geometry f = Some g → GetGeometryType g = wkbPoint → GetPoint_2D g 0 = Ok c →
  addlyr_feature lyr fields f s
  = (Ok tt, set_graph (DiGraph_add_node c (feature_attributes lyr fields f)
                         (graph s)) s).
Proof.
  intros Hg Hty Hc. unfold addlyr_feature. rewrite Hg, Hty.
  rewrite decide_True by reflexivity.
  rewrite (decide_False (P := wkbPoint = wkbLineString))
    by apply wkbPoint_not_LineString.
  unfold bind, lift. rewrite Hc. reflexivity.
Qed.

Lemma addlyr_feature_line lyr fields f g u v s :
  geometry f = Some g → GetGeometryType g = wkbLineString →
  GetPoint_2D g 0 = Ok u → GetPoint_2D g (GetPointCount g - 1) = Ok v →
  addlyr_feature lyr fields f s
  = (Ok tt, set_graph (DiGraph_add_edge u v
                         (line_attributes g (feature_attributes lyr fields f))
                         (graph s)) s).
Proof.
  intros Hg Hty Hu Hv. unfold addlyr_feature. rewrite Hg, Hty.
  rewrite (decide_False (P := wkbLineString = wkbPoint))
    by (intros E; symmetry in E; revert E; apply wkbPoint_not_LineString).
  rewrite decide_True by reflexivity.
  unfold bind, lift, ret. rewrite Hu, Hv. reflexivity.
Qed.

Lemma addlyr_feature_other lyr fields f g s :
  geometry f = Some g →
  GetGeometryType g ≠ wkbPoint → GetGeometryType g ≠ wkbLineString →
  addlyr_feature lyr fields f s = (Ok tt, s).
Proof.
  intros Hg Hp Hl. unfold addlyr_feature. rewrite Hg.
  rewrite !decide_False by assumption. reflexivity.
Qed.

(** What a feature does depends on its layer's name and schema only. *)
Lemma addlyr_feature_ext lyr lyr' fields f :
  GetName lyr = GetName lyr' → schema lyr = schema lyr' →
  addlyr_feature lyr fields f = addlyr_feature lyr' fields f.
Proof.
  intros Hn Hs. unfold addlyr_feature, feature_attributes, getfieldinfo,
    GetFieldIndex. rewrite Hn, Hs. reflexivity.
Qed.

(** C6: a feature whose geometry is neither a point nor a line string (a
    polygon, say) adds no node and no edge and does not raise: the state
    after it is the state before it.  The features after it are
    processed as if it were not there. *)
Theorem other_geometry_skipped (lyr : Layer) (fields : list string)
    (f : Feature) (g : Geometry) :
  geometry f = Some g →
  GetGeometryType g ≠ wkbPoint → GetGeometryType g ≠ wkbLineString →
  (∀ s, addlyr_feature lyr fields f s = (Ok tt, s))
  ∧ (∀ name sch pre post s,
       addlyr (mkLayer name sch (pre ++ f :: post)) fields s
       = addlyr (mkLayer name sch (pre ++ post)) fields s).
Proof.
  intros Hg Hp Hl. split.
  - intros s. by eapply addlyr_feature_other.
  - intros name sch pre post s. unfold addlyr. simpl.
    change (addlyr_feature (mkLayer name sch (pre ++ f :: post)) fields)
      with (addlyr_feature (mkLayer name sch (pre ++ post)) fields).
    rewrite !for_each_app. simpl. unfold bind.
    destruct (for_each pre _ s) as [[[]|e] s1]; [|reflexivity].
    by rewrite (addlyr_feature_other _ _ _ g).
Qed.

Lemma dom_touch_node (n : coord) (nodes : gmap coord attrs) :
  dom (touch_node n nodes) = {[n]} ∪ dom nodes.
Proof.
  unfold touch_node. destruct (nodes !! n) eqn:E.
  - apply elem_of_dom_2 in E. apply set_eq. intros x.
    rewrite elem_of_union, elem_of_singleton. naive_solver.
  - apply dom_insert_L.
Qed.

(** C3: a line-string feature adds exactly one edge, from its first
    vertex to its last; every other edge stays as it was, and the only
    nodes it can add are these two end points, so the vertices in
    between give no node and no edge. *)
Theorem line_feature_one_edge (lyr : Layer) (fields : list string)
    (fv : list value) (p q : coord) (ps : list coord) (s : State) :
  last (p :: ps) = Some q →
  let f := mkFeature fv (Some (mkGeometry wkbLineString (p :: ps))) in
  let s' := (addlyr_feature lyr fields f s).2 in
  (addlyr_feature lyr fields f s).1 = Ok tt
  ∧ dom (edge (graph s')) = {[(p, q)]} ∪ dom (edge (graph s))
  ∧ (∀ e, e ≠ (p, q) → edge (graph s') !! e = edge (graph s) !! e)
  ∧ dom (node (graph s')) = {[p; q]} ∪ dom (node (graph s)).
Proof.
  intros Hq f s'. subst s'.
  set (g := mkGeometry wkbLineString (p :: ps)).
  assert (Hu : GetPoint_2D g 0 = Ok p) by by apply (GetPoint_2D_first g p ps).
  assert (Hv : GetPoint_2D g (GetPointCount g - 1) = Ok q)
    by by apply (GetPoint_2D_last g (p :: ps) q).
  rewrite (addlyr_feature_line lyr fields f g p q s eq_refl eq_refl Hu Hv).
  simpl. split; [reflexivity|]. split; [apply dom_insert_L|]. split.
  - intros e He. by rewrite lookup_insert_ne.
  - rewrite !dom_touch_node. set_solver.
Qed.

(** *** The attribute mapping of a feature *)

Lemma dict_zip_lookup_gen (h : string → value) (l : list string) (d : attrs) x :
  fold_left (λ d kv, <[kv.1 := kv.2]> d) (zip l (map h l)) d !! x
  = if decide (x ∈ l) then Some (h x) else d !! x.
Proof.
  revert d. induction l as [|y l IH]; intros d; simpl.
  - reflexivity.
  - rewrite IH.
    destruct (decide (x ∈ l)) as [Hin|Hnin], (decide (x ∈ y :: l)) as [Hin'|Hnin'];
      try reflexivity.
    + exfalso. apply Hnin'. by right.
    + apply elem_of_cons in Hin' as [->|?]; [apply lookup_insert_eq|done].
    + apply lookup_insert_ne. intros ->. apply Hnin'. by left.
Qed.

Lemma dict_zip_lookup (h : string → value) (l : list string) x :
  dict (zip l (map h l)) !! x = if decide (x ∈ l) then Some (h x) else None.
Proof. unfold dict. rewrite dict_zip_lookup_gen. by rewrite lookup_empty. Qed.

Lemma feature_attributes_lookup lyr fields f x :
  feature_attributes lyr fields f !! x
  = if decide (x = "ShpName") then Some (VStr (GetName lyr))
    else if decide (x ∈ fields) then Some (field_value lyr f x) else None.
Proof.
  unfold feature_attributes, getfieldinfo.
  destruct (decide (x = "ShpName")) as [->|Hne].
  - apply lookup_insert_eq.
  - rewrite lookup_insert_ne by done. apply dict_zip_lookup.
Qed.

Lemma feature_attributes_dom lyr fields f :
  dom (feature_attributes lyr fields f) = list_to_set fields ∪ {["ShpName"]}.
Proof.
  apply set_eq. intros x.
  rewrite elem_of_dom, feature_attributes_lookup, elem_of_union,
    elem_of_list_to_set, elem_of_singleton.
  destruct (decide (x = "ShpName")); [split; eauto|].
  destruct (decide (x ∈ fields)); split; eauto.
  - intros [? [=]].
  - intros [?|?]; done.
Qed.

Lemma line_attributes_lookup g (a : attrs) x :
  line_attributes g a !! x
  = if decide (x = "Json") then Some (VStr (ExportToJson g))
    else if decide (x = "Wkt") then Some (VStr (ExportToWkt g))
    else if decide (x = "Wkb") then Some (VStr (ExportToWkb g))
    else a !! x.
Proof.
  unfold line_attributes.
  destruct (decide (x = "Json")) as [->|?]; [apply lookup_insert_eq|].
  rewrite lookup_insert_ne by done.
  destruct (decide (x = "Wkt")) as [->|?]; [apply lookup_insert_eq|].
  rewrite lookup_insert_ne by done.
  destruct (decide (x = "Wkb")) as [->|?]; [apply lookup_insert_eq|].
  by rewrite lookup_insert_ne.
Qed.

Lemma line_attributes_dom g (a : attrs) :
  dom (line_attributes g a) = dom a ∪ {["Wkb"; "Wkt"; "Json"]}.
Proof.
  unfold line_attributes. rewrite !dom_insert_L.
  apply set_eq. intros x. rewrite !elem_of_union, !elem_of_singleton. tauto.
Qed.

(** C7, as amended: the attribute mapping a feature leaves on its node (a
    point feature) or edge (a line feature) has an entry under the name of
    every field of the layer's schema and an entry [ShpName] with the
    layer's name, and on an edge the three encodings [Wkb], [Wkt] and
    [Json] of the feature's geometry on top; it has no other entry.  The
    entry of a field is the value read for that field unless a synthetic
    entry has the same name. *)
Theorem feature_attribute_mapping (lyr : Layer) (f : Feature) (g : Geometry)
    (s : State) :
  geometry f = Some g →
  let fields := schema lyr in
  let s' := (addlyr_feature lyr fields f s).2 in
  (∀ c, GetGeometryType g = wkbPoint → GetPoint_2D g 0 = Ok c →
     ∃ a, node (graph s') !! c = Some a
        ∧ dom a = list_to_set fields ∪ {["ShpName"]}
        ∧ a !! "ShpName" = Some (VStr (GetName lyr))
        ∧ ∀ x, x ∈ fields → x ≠ "ShpName" →
               a !! x = Some (field_value lyr f x))
  ∧ (∀ u v, GetGeometryType g = wkbLineString →
      GetPoint_2D g 0 = Ok u → GetPoint_2D g (GetPointCount g - 1) = Ok v →
     ∃ a, edge (graph s') !! (u, v) = Some a
        ∧ dom a = list_to_set fields ∪ {["ShpName"]} ∪ {["Wkb"; "Wkt"; "Json"]}
        ∧ a !! "ShpName" = Some (VStr (GetName lyr))
        ∧ a !! "Wkb" = Some (VStr (ExportToWkb g))
        ∧ a !! "Wkt" = Some (VStr (ExportToWkt g))
        ∧ a !! "Json" = Some (VStr (ExportToJson g))
        ∧ ∀ x, x ∈ fields → x ∉ ["ShpName"; "Wkb"; "Wkt"; "Json"] →
               a !! x = Some (field_value lyr f x)).
Proof.
  intros Hg fields s'. subst s'. split.
  - intros c Hty Hc. rewrite (addlyr_feature_point _ _ _ g c) by assumption.
    exists (feature_attributes lyr fields f). simpl.
    split; [apply lookup_insert_eq|]. split; [apply feature_attributes_dom|].
    split; [by rewrite feature_attributes_lookup|].
    intros x Hx Hne. rewrite feature_attributes_lookup.
    by repeat case_decide.
  - intros u v Hty Hu Hv. rewrite (addlyr_feature_line _ _ _ g u v) by assumption.
    exists (line_attributes g (feature_attributes lyr fields f)). simpl.
    split; [apply lookup_insert_eq|].
    split; [by rewrite line_attributes_dom, feature_attributes_dom|].
    split; [by rewrite line_attributes_lookup, feature_attributes_lookup|].
    do 3 (split; [by rewrite line_attributes_lookup|]).
    intros x Hx Hne. rewrite line_attributes_lookup, feature_attributes_lookup.
    rewrite !not_elem_of_cons in Hne. destruct Hne as (?&?&?&?&_).
    by repeat case_decide.
Qed.

(** *** Last write wins *)

Lemma bind_Ok_inv {A B} (c : M A) (k : A → M B) s b s' :
  bind c k s = (Ok b, s') → ∃ a s1, c s = (Ok a, s1) ∧ k a s1 = (Ok b, s').
Proof.
  unfold bind. destruct (c s) as [[a|e] s1]; [eauto|discriminate].
Qed.

Lemma touch_node_lookup_Some (n c : coord) (nodes : gmap coord attrs) a :
  nodes !! c = Some a → touch_node n nodes !! c = Some a.
Proof.
  intros Hc. unfold touch_node. destruct (nodes !! n) eqn:E; [done|].
  rewrite lookup_insert_ne; [done|]. intros ->. congruence.
Qed.

(** A feature that is no point feature at [c] leaves the node at [c]
    with the attributes it has, also when the feature cannot be read. *)
Lemma addlyr_feature_keeps_node lyr fields f (c : coord) a s :
  ¬ point_at c f → node (graph s) !! c = Some a →
  node (graph (addlyr_feature lyr fields f s).2) !! c = Some a.
Proof.
  intros Hnp Hc. unfold addlyr_feature.
  destruct (geometry f) as [g|] eqn:Hg; [|exact Hc].
  unfold bind, lift, ret, add_node, add_edge, modify.
  destruct (decide (GetGeometryType g = wkbPoint)) as [Hty|Hty].
  - rewrite Hty.
    rewrite (decide_False (P := wkbPoint = wkbLineString))
      by apply wkbPoint_not_LineString.
    destruct (GetPoint_2D g 0) as [p|e] eqn:Hp; simpl; [|exact Hc].
    rewrite lookup_insert_ne; [exact Hc|].
    intros ->. apply Hnp. by exists g.
  - destruct (decide (GetGeometryType g = wkbLineString)); [|exact Hc].
    destruct (GetPoint_2D g 0) as [u|e1]; simpl; [|exact Hc].
    destruct (GetPoint_2D g _) as [v|e2]; simpl; [|exact Hc].
    by do 2 apply touch_node_lookup_Some.
Qed.

Lemma for_each_keeps_node {A} (l : list A) (body : A → M unit) (c : coord) a s :
  (∀ x s, x ∈ l → node (graph s) !! c = Some a →
          node (graph (body x s).2) !! c = Some a) →
  node (graph s) !! c = Some a →
  node (graph (for_each l body s).2) !! c = Some a.
Proof.
  revert s. induction l as [|x l IH]; intros s Hb Hc; simpl; [exact Hc|].
  unfold bind. pose proof (Hb x s (list_elem_of_here _ _) Hc) as Hx.
  destruct (body x s) as [[[]|e] s1]; simpl in *; [|exact Hx].
  apply IH; [|exact Hx]. intros y s2 Hy. apply Hb. by right.
Qed.

Lemma addlyr_keeps_node lyr fields (c : coord) a s :
  (∀ f, f ∈ features lyr → ¬ point_at c f) →
  node (graph s) !! c = Some a →
  node (graph (addlyr lyr fields s).2) !! c = Some a.
Proof.
  intros Hnp Hc. unfold addlyr. apply for_each_keeps_node; [|exact Hc].
  intros f s1 Hf. apply addlyr_feature_keeps_node. by apply Hnp.
Qed.

(** C5: when [read_shp] returns a graph, the node at a coordinate has
    exactly the attribute mapping of the last point feature read at that
    coordinate, whatever was read before: of two point features at one
    coordinate the graph keeps one node, and of the earlier feature's
    attributes nothing. *)
Theorem last_point_feature_wins (path : string) (s s' : State) (G : DiGraph)
    (before after : list Layer) (lyr : Layer)
    (pre post : list Feature) (f : Feature) (c : coord) :
  read_shp (PyStr path) s = (Ok G, s') →
  fs s !! path = Some (before ++ lyr :: after) →
  features lyr = pre ++ f :: post →
  point_at c f →
  (∀ f', f' ∈ post → ¬ point_at c f') →
  (∀ lyr' f', lyr' ∈ after → f' ∈ features lyr' → ¬ point_at c f') →
  node G !! c = Some (feature_attributes lyr (schema lyr) f).
Proof.
  intros Hread Hfs Hfeat (g & Hg & Hty & Hc) Hpost Hafter.
  unfold read_shp in Hread.
  apply bind_Ok_inv in Hread as ([] & s1 & Himp & Hread).
  assert (s1 = s) as ->.
  { unfold import_ogr in Himp. destruct (ogr_importable s); congruence. }
  apply bind_Ok_inv in Hread as ([] & s2 & Hnew & Hread).
  apply bind_Ok_inv in Hread as ([] & s3 & Hloop & Hret).
  injection Hret as <- _.
  apply bind_Ok_inv in Hloop as (shp & s4 & Hopen & Hloop).
  assert (shp = before ++ lyr :: after) as ->.
  { unfold ogr_Open, bind, modify, gets in Hopen. simpl in Hopen.
    injection Hnew as <-. simpl in Hopen. rewrite Hfs in Hopen.
    by injection Hopen as -> _. }
  rewrite for_each_app in Hloop.
  apply bind_Ok_inv in Hloop as ([] & s5 & _ & Hloop). simpl in Hloop.
  destruct (bind_Ok_inv _ _ _ _ _ Hloop) as ([] & s6 & Hlyr & Hafter').
  replace s3 with (for_each after (λ l, addlyr l (schema l)) s6).2
    by (by rewrite Hafter').
  apply for_each_keeps_node.
  { intros l s7 Hl. apply addlyr_keeps_node. intros f'. by apply Hafter. }
  clear Hloop Hafter'. unfold addlyr in Hlyr. rewrite Hfeat in Hlyr.
  rewrite for_each_app in Hlyr.
  apply bind_Ok_inv in Hlyr as ([] & s7 & _ & Hlyr). simpl in Hlyr.
  rewrite (bind_Ok _ _ _ _ _ (addlyr_feature_point _ _ _ g c s7 Hg Hty Hc))
    in Hlyr.
  match type of Hlyr with for_each post ?b ?st = _ =>
    replace s6 with (for_each post b st).2 by (by rewrite Hlyr) end.
  apply for_each_keeps_node.
  { intros f' s8 Hf'. apply addlyr_feature_keeps_node. by apply Hpost. }
  simpl. apply lookup_insert_eq.
Qed.

(** *** [netgeometry] *)

Lemma netgeometry_no_encoding key (d : attrs) :
  d !! "Wkb" = None → d !! "Wkt" = None →
  netgeometry key (VDict d) = SetPoint_unpack (new_Geometry wkbPoint) 0 key.
Proof.
  intros Hb Ht. unfold netgeometry, has_key. rewrite Hb, Ht.
  rewrite !bool_decide_eq_false_2 by (by intros [? [=]]). reflexivity.
Qed.

(** An edge without stored geometry is sent down the point branch, which
    cannot take its key: no line string is built from the two ends. *)
Lemma netgeometry_edge_no_encoding e (d : attrs) :
  d !! "Wkb" = None → d !! "Wkt" = None →
  netgeometry (EdgeKey e) (VDict d) = Raise TypeError.
Proof. intros Hb Ht. by rewrite netgeometry_no_encoding. Qed.

Lemma netgeometry_node_no_encoding n (d : attrs) :
  d !! "Wkb" = None → d !! "Wkt" = None →
  netgeometry (NodeKey n) (VDict d) = Ok (point_geometry n).
Proof. intros Hb Ht. by rewrite netgeometry_no_encoding. Qed.

Lemma netgeometry_Wkb key (d : attrs) w :
  d !! "Wkb" = Some (VStr w) →
  netgeometry key (VDict d)
  = from_option Ok (Raise LibraryError) (CreateGeometryFromWkb w).
Proof.
  intros Hb. unfold netgeometry, has_key, getitem, decode_with. rewrite Hb.
  by rewrite bool_decide_eq_true_2 by eauto.
Qed.

(** What is not a dictionary has no [has_key]. *)
Lemma netgeometry_not_dict key v :
  (∀ d, v ≠ VDict d) → netgeometry key v = Raise AttributeError.
Proof. intros Hv. destruct v; try reflexivity. by destruct (Hv d). Qed.

(** The first value of a mapping that has entries is one of its values. *)
Lemma values_or_empty_elem (a : attrs) :
  a ≠ ∅ → ∃ k, a !! k = Some (values_or_empty a).
Proof.
  intros Hne. unfold values_or_empty, values.
  destruct (map_to_list a) as [|[k v] l] eqn:E.
  - by apply map_to_list_empty_iff in E.
  - exists k. apply elem_of_map_to_list. rewrite E. left.
Qed.

(** A node that carries attributes, none of them a dictionary, stops
    [netgeometry]: it is handed a value of the mapping, not the mapping. *)
Lemma netgeometry_node_with_attributes n (a : attrs) :
  a ≠ ∅ → (∀ k d, a !! k ≠ Some (VDict d)) →
  netgeometry (NodeKey n) (values_or_empty a) = Raise AttributeError.
Proof.
  intros Hne Hscalar. destruct (values_or_empty_elem a Hne) as [k Hk].
  apply netgeometry_not_dict. intros d Hd. apply (Hscalar k d). by rewrite Hk, Hd.
Qed.

Lemma values_or_empty_empty : values_or_empty ∅ = VDict ∅.
Proof. unfold values_or_empty, values. by rewrite map_to_list_empty. Qed.

(** *** Writing features *)

Lemma map_alter_Some {K} `{Countable K} {A} (f : A → A) (m : gmap K A) i x :
  m !! i = Some x → alter f i m = <[i := f x]> m.
Proof.
  intros Hi. apply map_eq. intros j. rewrite lookup_alter, lookup_insert.
  case_decide; subst; by rewrite ?Hi.
Qed.

Lemma list_alter_Some {A} (f : A → A) (l : list A) i x :
  l !! i = Some x → alter f i l = <[i := f x]> l.
Proof.
  intros Hi. apply list_eq. intros j. destruct (decide (i = j)) as [<-|Hne].
  - rewrite list_lookup_alter_eq, list_lookup_insert_eq, Hi; [done|].
    by eapply lookup_lt_Some.
  - by rewrite list_lookup_alter_ne, list_lookup_insert_ne.
Qed.

Lemma written_fs shpdir lyr f s ds L :
  fs s !! shpdir = Some ds → ds !! lyr = Some L →
  fs (written shpdir lyr f s) = <[shpdir := <[lyr := Layer_add f L]> ds]> (fs s).
Proof.
  intros Hds HL. unfold written. simpl.
  rewrite (map_alter_Some _ _ _ ds Hds). by rewrite (list_alter_Some _ _ _ L HL).
Qed.

(** A loop that creates one feature per element, in a layer that is
    there, appends these features to the layer and changes nothing else
    on disk. *)
Lemma write_loop {A} (l : list A) (body : A → M unit) (mk : A → Feature)
    (G : DiGraph) shpdir lyr :
  (∀ x s, x ∈ l → graph s = G →
          body x s = (Ok tt, written shpdir lyr (mk x) s)) →
  ∀ s ds nm sch feats,
    graph s = G → fs s !! shpdir = Some ds →
    ds !! lyr = Some (mkLayer nm sch feats) →
    ∃ s', for_each l body s = (Ok tt, s')
        ∧ graph s' = G ∧ ogr_importable s' = ogr_importable s
        ∧ fs s' = <[shpdir := <[lyr := mkLayer nm sch (feats ++ map mk l)]> ds]>
                    (fs s).
Proof.
  induction l as [|x l IH]; intros Hbody s ds nm sch feats HG Hds HL; simpl.
  - exists s. rewrite app_nil_r, (list_insert_id _ _ _ HL), (insert_id _ _ _ Hds).
    done.
  - pose proof (Hbody x s (list_elem_of_here _ _) HG) as Hx.
    pose proof (written_fs shpdir lyr (mk x) s ds _ Hds HL) as Hfs1.
    destruct (IH (λ y s0 Hy, Hbody y s0 (list_elem_of_further _ _ _ Hy))
                (written shpdir lyr (mk x) s)
                (<[lyr := Layer_add (mk x) (mkLayer nm sch feats)]> ds)
                nm sch (feats ++ [mk x]))
      as (s' & Hrun & HG' & Hogr & Hfs').
    + exact HG.
    + rewrite Hfs1. apply lookup_insert_eq.
    + apply list_lookup_insert_eq. by eapply lookup_lt_Some.
    + exists s'. rewrite (bind_Ok _ _ _ _ _ Hx). split; [exact Hrun|].
      split; [exact HG'|]. split; [exact Hogr|].
      rewrite Hfs', Hfs1, insert_insert_eq, list_insert_insert_eq.
      by rewrite <- app_assoc.
Qed.

Lemma elem_of_keys {K} `{Countable K} {A} (m : gmap K A) k :
  k ∈ (map_to_list m).*1 ↔ is_Some (m !! k).
Proof.
  rewrite list_elem_of_fmap. split.
  - intros [[k' x] [-> Hin]]. apply elem_of_map_to_list in Hin. by exists x.
  - intros [x Hx]. exists (k, x). split; [done|]. by apply elem_of_map_to_list.
Qed.

Lemma CreateLayer_run shpdir name s shp :
  fs s !! shpdir = Some shp →
  CreateLayer shpdir name s
  = (Ok (length shp),
     set_fs (<[shpdir := shp ++ [mkLayer name [] []]]> (fs s))
       (log (ACreateLayer shpdir name) s)).
Proof.
  intros Hshp. unfold CreateLayer, bind, modify, gets. simpl. by rewrite Hshp.
Qed.

Lemma stored_geometry_line_graph G u v a :
  wkb_round_trip → line_graph G → edge G !! (u, v) = Some a →
  a !! "Wkb" = Some (VStr (ExportToWkb (stored_geometry G (u, v))))
  ∧ a !! "Wkt" = Some (VStr (ExportToWkt (stored_geometry G (u, v))))
  ∧ a !! "Json" = Some (VStr (ExportToJson (stored_geometry G (u, v))))
  ∧ GetGeometryType (stored_geometry G (u, v)) = wkbLineString
  ∧ GetPoint_2D (stored_geometry G (u, v)) 0 = Ok u
  ∧ GetPoint_2D (stored_geometry G (u, v))
      (GetPointCount (stored_geometry G (u, v)) - 1) = Ok v.
Proof.
  intros Hrt HG He.
  destruct (line_graph_edges G HG u v a He) as (g & Hb & Ht & Hj & Hty & Hu & Hv).
  assert (stored_geometry G (u, v) = g) as ->; [|done].
  unfold stored_geometry. rewrite He. simpl. rewrite Hb. simpl. by rewrite Hrt.
Qed.

(** [write_shp] on a line graph, into a fresh directory: it returns, and
    the directory then holds a point for every node and, for every edge,
    the line string its binary encoding stands for. *)
Lemma write_shp_line_graph outdir s :
  wkb_round_trip → line_graph (graph s) →
  ogr_importable s = true → fs s !! outdir = None →
  ∃ s', write_shp outdir s = (Ok tt, s')
      ∧ graph s' = graph s ∧ ogr_importable s' = true
      ∧ fs s' !! outdir
        = Some [mkLayer "nodes" []
                  (map (λ n, geometry_feature (point_geometry n))
                     (map_to_list (node (graph s))).*1);
                mkLayer "edges" []
                  (map (λ e, geometry_feature (stored_geometry (graph s) e))
                     (map_to_list (edge (graph s))).*1)].
Proof.
  intros Hrt HG Hogr Hfresh. unfold write_shp.
  rewrite (bind_Ok _ _ s tt s) by (unfold import_ogr; by rewrite Hogr).
  set (sa := set_fs (<[outdir := []]> (fs s)) (log (ACreateDataSource outdir) s)).
  rewrite (bind_Ok _ _ s tt sa)
    by (unfold CreateDataSource, bind, modify, gets; simpl; by rewrite Hfresh).
  rewrite (bind_Ok _ _ _ _ _ (CreateLayer_run outdir "nodes" sa []
                                (lookup_insert_eq _ _ _))).
  simpl app.
  match goal with |- context [bind (gets _) _ ?st] => set (sb := st) end.
  rewrite bind_gets. simpl length.
  destruct (write_loop (map_to_list (node (graph sb))).*1
              (λ n, a <- G_node n ;;
                    g <- lift (netgeometry (NodeKey n) (values_or_empty a)) ;;
                    create_feature g outdir 0%nat)
              (λ n, geometry_feature (point_geometry n))
              (graph s) outdir 0%nat) with (s := sb)
      (ds := [mkLayer "nodes" [] []]) (nm := "nodes") (sch := @nil string)
      (feats := @nil Feature)
    as (sc & Hrun & HGc & Hogrc & Hfsc);
    [|reflexivity|apply lookup_insert_eq|reflexivity|].
  { intros n s0 Hn HG0. change (graph sb) with (graph s) in Hn.
    apply elem_of_keys in Hn as [a Ha].
    pose proof (line_graph_nodes _ HG n a Ha) as ->.
    unfold G_node, bind, gets, lift. rewrite HG0, Ha. simpl.
    rewrite values_or_empty_empty.
    by rewrite netgeometry_node_no_encoding by apply lookup_empty. }
  rewrite (bind_Ok _ _ _ _ _ Hrun).
  assert (Hsc : fs sc !! outdir
                = Some [mkLayer "nodes" []
                          (map (λ n, geometry_feature (point_geometry n))
                             (map_to_list (node (graph s))).*1)]).
  { rewrite Hfsc. apply lookup_insert_eq. }
  rewrite (bind_Ok _ _ _ _ _ (CreateLayer_run outdir "edges" sc _ Hsc)).
  simpl app.
  match goal with |- context [bind (gets _) _ ?st] => set (sd := st) end.
  rewrite bind_gets. simpl length.
  assert (HGd : graph sd = graph s) by exact HGc.
  destruct (write_loop (map_to_list (edge (graph sd))).*1
              (λ e, data <- G_get_edge_data e ;;
                    g <- lift (netgeometry (EdgeKey e) data) ;;
                    create_feature g outdir 1%nat)
              (λ e, geometry_feature (stored_geometry (graph s) e))
              (graph s) outdir 1%nat) with (s := sd)
      (ds := [mkLayer "nodes" []
                (map (λ n, geometry_feature (point_geometry n))
                   (map_to_list (node (graph s))).*1);
              mkLayer "edges" [] []])
      (nm := "edges") (sch := @nil string) (feats := @nil Feature)
    as (se & Hrun' & HGe & Hogre & Hfse);
    [|exact HGd|apply lookup_insert_eq|reflexivity|].
  { intros [u v] s0 He HG0. rewrite HGd in He.
    apply elem_of_keys in He as [a Ha].
    destruct (stored_geometry_line_graph _ u v a Hrt HG Ha) as (Hb & _).
    unfold G_get_edge_data, bind, gets, lift, ret. rewrite HG0, Ha. simpl.
    rewrite (netgeometry_Wkb _ _ _ Hb), Hrt. reflexivity. }
  exists se. split; [exact Hrun'|]. split; [exact HGe|]. split.
  - rewrite Hogre. simpl. rewrite Hogrc. simpl. exact Hogr.
  - rewrite Hfse, lookup_insert_eq, HGd. reflexivity.
Qed.

(** *** Reading back what [write_shp] wrote *)

Lemma touch_node_id (n : coord) (nodes : gmap coord attrs) :
  is_Some (nodes !! n) → touch_node n nodes = nodes.
Proof. intros [a Ha]. unfold touch_node. by rewrite Ha. Qed.

(** The attributes of a feature of a layer without fields. *)
Lemma feature_attributes_no_fields lyr f :
  feature_attributes lyr [] f = <["ShpName" := VStr (GetName lyr)]> ∅.
Proof. reflexivity. Qed.

Lemma read_points lyr (ns : list coord) s :
  ∃ s', for_each (map (λ n, geometry_feature (point_geometry n)) ns)
          (addlyr_feature lyr []) s = (Ok tt, s')
      ∧ edge (graph s') = edge (graph s)
      ∧ ∀ n, node (graph s') !! n
             = if decide (n ∈ ns)
               then Some (<["ShpName" := VStr (GetName lyr)]> ∅)
               else node (graph s) !! n.
Proof.
  revert s. induction ns as [|m ns IH]; intros s; simpl.
  - exists s. split; [done|]. split; [done|]. intros n.
    destruct (decide (n ∈ [])) as [Hin|]; [by apply elem_of_nil in Hin|done].
  - rewrite (bind_Ok _ _ _ _ _
      (addlyr_feature_point lyr [] (geometry_feature (point_geometry m))
         (point_geometry m) m s eq_refl eq_refl eq_refl)).
    destruct (IH (set_graph (DiGraph_add_node m (feature_attributes lyr []
                    (geometry_feature (point_geometry m))) (graph s)) s))
      as (s' & Hrun & He & Hn).
    exists s'. split; [exact Hrun|]. split; [exact He|]. intros n.
    rewrite Hn. simpl.
    destruct (decide (n ∈ ns)) as [Hin|Hnin], (decide (n ∈ m :: ns)) as [Hin'|Hnin'];
      try reflexivity.
    + exfalso. apply Hnin'. by right.
    + apply elem_of_cons in Hin' as [->|?]; [|done].
      by rewrite lookup_insert_eq.
    + apply lookup_insert_ne. intros ->. apply Hnin'. by left.
Qed.

Lemma read_lines lyr (sg : coord * coord → Geometry) (es : list (coord * coord)) s :
  (∀ e, e ∈ es →
     GetGeometryType (sg e) = wkbLineString
     ∧ GetPoint_2D (sg e) 0 = Ok e.1
     ∧ GetPoint_2D (sg e) (GetPointCount (sg e) - 1) = Ok e.2) →
  (∀ e, e ∈ es →
     is_Some (node (graph s) !! e.1) ∧ is_Some (node (graph s) !! e.2)) →
  ∃ s', for_each (map (λ e, geometry_feature (sg e)) es)
          (addlyr_feature lyr []) s = (Ok tt, s')
      ∧ node (graph s') = node (graph s)
      ∧ ∀ e, edge (graph s') !! e
             = if decide (e ∈ es)
               then Some (line_attributes (sg e)
                            (<["ShpName" := VStr (GetName lyr)]> ∅))
               else edge (graph s) !! e.
Proof.
  revert s. induction es as [|[u v] es IH]; intros s Hsg Hends; simpl.
  - exists s. split; [done|]. split; [done|]. intros e.
    destruct (decide (e ∈ [])) as [Hin|]; [by apply elem_of_nil in Hin|done].
  - destruct (Hsg (u, v) (list_elem_of_here _ _)) as (Hty & Hu & Hv).
    destruct (Hends (u, v) (list_elem_of_here _ _)) as (Hnu & Hnv).
    simpl in Hu, Hv, Hnu, Hnv.
    rewrite (bind_Ok _ _ _ _ _
      (addlyr_feature_line lyr [] (geometry_feature (sg (u, v)))
         (sg (u, v)) u v s eq_refl Hty Hu Hv)).
    set (s1 := set_graph _ s).
    assert (Hn1 : node (graph s1) = node (graph s)).
    { simpl. by rewrite (touch_node_id u), (touch_node_id v). }
    destruct (IH s1) as (s' & Hrun & Hn & He).
    { intros e He. apply Hsg. by right. }
    { intros e He. rewrite Hn1. apply Hends. by right. }
    exists s'. split; [exact Hrun|]. split; [by rewrite Hn|]. intros e.
    rewrite He. simpl.
    destruct (decide (e ∈ es)) as [Hin|Hnin], (decide (e ∈ (u, v) :: es)) as [Hin'|Hnin'];
      try reflexivity.
    + exfalso. apply Hnin'. by right.
    + apply elem_of_cons in Hin' as [->|?]; [|done].
      by rewrite lookup_insert_eq.
    + apply lookup_insert_ne. intros <-. apply Hnin'. by left.
Qed.

Lemma ogr_Open_run path s shp :
  fs s !! path = Some shp → ogr_Open path s = (Ok shp, log (AOpen path) s).
Proof. intros Hshp. unfold ogr_Open, bind, modify, gets. simpl. by rewrite Hshp. Qed.

(** [read_shp] of a path that holds a data source returns the graph its
    loop over the layers has built, if the loop ends. *)
Lemma read_shp_run path s shp s' :
  ogr_importable s = true → fs s !! path = Some shp →
  for_each shp (λ lyr, addlyr lyr (schema lyr))
    (log (AOpen path) (set_graph empty_DiGraph s)) = (Ok tt, s') →
  read_shp (PyStr path) s = (Ok (graph s'), s').
Proof.
  intros Hogr Hshp Hloop. unfold read_shp.
  rewrite (bind_Ok _ _ s tt s) by (unfold import_ogr; by rewrite Hogr).
  rewrite (bind_Ok _ _ s tt (set_graph empty_DiGraph s)) by reflexivity.
  rewrite (bind_Ok _ _ (set_graph empty_DiGraph s) tt s'); [reflexivity|].
  rewrite (bind_Ok _ _ _ _ _
    (ogr_Open_run path (set_graph empty_DiGraph s) shp Hshp)). exact Hloop.
Qed.

(** *** Graphs read from line shapefiles *)

Lemma addlyr_feature_preserves {B} (proj : State → B) lyr fields f :
  (∀ G s, proj (set_graph G s) = proj s) →
  preserves proj (addlyr_feature lyr fields f).
Proof.
  intros Hproj. unfold addlyr_feature.
  apply preserves_match_option; [intros g|apply preserves_raise].
  apply preserves_bind.
  - case_decide; [|apply preserves_ret].
    apply preserves_bind; [apply preserves_lift|intros p].
    apply preserves_modify. intros s. apply Hproj.
  - intros _. case_decide; [|apply preserves_ret].
    apply preserves_bind; [apply preserves_lift|intros u].
    apply preserves_bind; [apply preserves_lift|intros v].
    apply preserves_modify. intros s. apply Hproj.
Qed.

Lemma line_graph_empty : line_graph empty_DiGraph.
Proof.
  split; simpl.
  - intros n a Hn. by rewrite lookup_empty in Hn.
  - intros u v a He. by rewrite lookup_empty in He.
  - intros u v [a He]. by rewrite lookup_empty in He.
Qed.

Lemma touch_node_lookup_inv (n k : coord) (nodes : gmap coord attrs) a :
  touch_node n nodes !! k = Some a → nodes !! k = Some a ∨ a = ∅.
Proof.
  unfold touch_node. destruct (nodes !! n) eqn:E; [by left|].
  destruct (decide (n = k)) as [->|Hne].
  - rewrite lookup_insert_eq. intros [= <-]. by right.
  - rewrite lookup_insert_ne by done. by left.
Qed.

Lemma touch_node_is_Some (n k : coord) (nodes : gmap coord attrs) :
  k = n ∨ is_Some (nodes !! k) → is_Some (touch_node n nodes !! k).
Proof.
  intros Hk. unfold touch_node. destruct (nodes !! n) eqn:E.
  - destruct Hk as [->|Hk]; [by rewrite E|done].
  - destruct (decide (n = k)) as [->|Hne].
    + by rewrite lookup_insert_eq.
    + rewrite lookup_insert_ne by done. by destruct Hk as [->|Hk].
Qed.

(** A line feature keeps a line graph one. *)
Lemma line_graph_add_edge G g u v (a0 : attrs) :
  line_graph G → GetGeometryType g = wkbLineString →
  GetPoint_2D g 0 = Ok u → GetPoint_2D g (GetPointCount g - 1) = Ok v →
  line_graph (DiGraph_add_edge u v (line_attributes g a0) G).
Proof.
  intros HG Hty Hu Hv. split; simpl.
  - intros n a Hn.
    apply touch_node_lookup_inv in Hn as [Hn | ->]; [|done].
    apply touch_node_lookup_inv in Hn as [Hn | ->]; [|done].
    by eapply line_graph_nodes.
  - intros u' v' a. destruct (decide ((u, v) = (u', v'))) as [Heq|Hne].
    + injection Heq as <- <-. rewrite lookup_insert_eq. intros [= <-]. exists g.
      by rewrite !line_attributes_lookup.
    + rewrite lookup_insert_ne by done. by apply line_graph_edges.
  - intros u' v'. destruct (decide ((u, v) = (u', v'))) as [Heq|Hne].
    + injection Heq as <- <-. intros _. split.
      * apply touch_node_is_Some. right. apply touch_node_is_Some. by left.
      * apply touch_node_is_Some. by left.
    + rewrite lookup_insert_ne by done. intros He.
      destruct (line_graph_ends G HG u' v' He).
      split; apply touch_node_is_Some; right; apply touch_node_is_Some;
        by right.
Qed.

Lemma read_line_features lyr fields (l : list Feature) s :
  (∀ f, f ∈ l → ∃ p ps, geometry f = Some (mkGeometry wkbLineString (p :: ps))) →
  line_graph (graph s) →
  ∃ s', for_each l (addlyr_feature lyr fields) s = (Ok tt, s')
      ∧ line_graph (graph s').
Proof.
  revert s. induction l as [|f l IH]; intros s Hl HG; simpl.
  - by exists s.
  - destruct (Hl f (list_elem_of_here _ _)) as (p & ps & Hg).
    set (g := mkGeometry wkbLineString (p :: ps)) in *.
    assert (is_Some (last (p :: ps))) as [q Hq] by (by apply last_is_Some).
    assert (Hu : GetPoint_2D g 0 = Ok p) by by apply (GetPoint_2D_first g p ps).
    assert (Hv : GetPoint_2D g (GetPointCount g - 1) = Ok q)
      by by apply (GetPoint_2D_last g (p :: ps) q).
    rewrite (bind_Ok _ _ _ _ _
      (addlyr_feature_line lyr fields f g p q s Hg eq_refl Hu Hv)).
    apply IH.
    + intros f' Hf'. apply Hl. by right.
    + simpl. by apply line_graph_add_edge.
Qed.

Lemma read_line_layers (shp : DataSource) s :
  line_source shp → line_graph (graph s) →
  ∃ s', for_each shp (λ lyr, addlyr lyr (schema lyr)) s = (Ok tt, s')
      ∧ line_graph (graph s').
Proof.
  revert s. induction shp as [|lyr shp IH]; intros s Hshp HG; simpl.
  - by exists s.
  - destruct (read_line_features lyr (schema lyr) (features lyr) s)
      as (s1 & Hrun & HG1); [|exact HG|].
    { intros f Hf. apply (Hshp lyr f); [left|exact Hf]. }
    unfold addlyr at 1. rewrite (bind_Ok _ _ _ _ _ Hrun).
    apply IH; [|exact HG1].
    intros lyr' f Hlyr' Hf. apply (Hshp lyr' f); [by right|exact Hf].
Qed.

Lemma read_loop_preserves {B} (proj : State → B) (shp : DataSource) :
  (∀ G s, proj (set_graph G s) = proj s) →
  preserves proj (for_each shp (λ lyr, addlyr lyr (schema lyr))).
Proof.
  intros Hproj. apply preserves_for_each. intros lyr. unfold addlyr.
  apply preserves_for_each. intros f. by apply addlyr_feature_preserves.
Qed.

(** [read_shp] of a source of line strings returns a line graph and
    leaves the disk as it is. *)
Lemma read_shp_line_source path s shp :
  ogr_importable s = true → fs s !! path = Some shp → line_source shp →
  ∃ s', read_shp (PyStr path) s = (Ok (graph s'), s')
      ∧ line_graph (graph s')
      ∧ fs s' = fs s ∧ ogr_importable s' = true.
Proof.
  intros Hogr Hshp Hlines.
  destruct (read_line_layers shp (log (AOpen path) (set_graph empty_DiGraph s)))
    as (s' & Hrun & HG); [exact Hlines|apply line_graph_empty|].
  exists s'. split; [by apply (read_shp_run path s shp)|]. split; [exact HG|].
  pose proof (read_loop_preserves fs shp (λ _ _, eq_refl)
                (log (AOpen path) (set_graph empty_DiGraph s))) as Hfs.
  pose proof (read_loop_preserves ogr_importable shp (λ _ _, eq_refl)
                (log (AOpen path) (set_graph empty_DiGraph s))) as Ho.
  rewrite Hrun in Hfs, Ho. simpl in Hfs, Ho. by rewrite Hfs, Ho.
Qed.

(** C9, as amended: for a graph read from line shapefiles, with a codec
    whose binary encoding decodes to what was encoded, writing the graph
    to a fresh directory and reading the directory back both return, and
    give a graph with the same nodes and the same edges, every edge with
    the three geometry encodings it had.  The other attributes are not
    carried over: a node comes back with the one entry [ShpName] =
    "nodes", and an edge with [ShpName] = "edges" and the three
    encodings and nothing else. *)
Theorem round_trip_of_line_graphs (src outdir : string) (shp : DataSource)
    (s : State) :
  wkb_round_trip →
  ogr_importable s = true →
  fs s !! src = Some shp → line_source shp →
  fs s !! outdir = None →
  ∃ G s1 s2 G' s3,
    read_shp (PyStr src) s = (Ok G, s1)
    ∧ write_shp outdir s1 = (Ok tt, s2)
    ∧ read_shp (PyStr outdir) s2 = (Ok G', s3)
    ∧ dom (node G') = dom (node G)
    ∧ dom (edge G') = dom (edge G)
    ∧ (∀ n, n ∈ dom (node G) →
         node G' !! n = Some (<["ShpName" := VStr "nodes"]> ∅))
    ∧ (∀ e a, edge G !! e = Some a →
         ∃ a', edge G' !! e = Some a'
             ∧ a' !! "Wkb" = a !! "Wkb"
             ∧ a' !! "Wkt" = a !! "Wkt"
             ∧ a' !! "Json" = a !! "Json"
             ∧ a' !! "ShpName" = Some (VStr "edges")
             ∧ dom a' = {["ShpName"; "Wkb"; "Wkt"; "Json"]}).
Proof.
  intros Hrt Hogr Hsrc Hlines Hfresh.
  destruct (read_shp_line_source src s shp Hogr Hsrc Hlines)
    as (s1 & Hread & HG & Hfs1 & Hogr1).
  destruct (write_shp_line_graph outdir s1 Hrt HG Hogr1)
    as (s2 & Hwrite & HG2 & Hogr2 & Hfs2); [by rewrite Hfs1|].
  set (G := graph s1) in *.
  set (ns := (map_to_list (node G)).*1) in *.
  set (es := (map_to_list (edge G)).*1) in *.
  set (N := mkLayer "nodes" [] _) in Hfs2.
  set (E := mkLayer "edges" [] _) in Hfs2.
  set (s0 := log (AOpen outdir) (set_graph empty_DiGraph s2)).
  destruct (read_points N ns s0) as (sp & Hp & Hpe & Hpn).
  assert (Hes : ∀ e, e ∈ es → ∃ a, edge G !! e = Some a).
  { intros e He. by apply elem_of_keys in He. }
  destruct (read_lines E (stored_geometry G) es sp) as (s3 & Hl & Hln & Hle).
  { intros [u v] He. destruct (Hes _ He) as [a Ha].
    by destruct (stored_geometry_line_graph G u v a Hrt HG Ha)
      as (_ & _ & _ & ? & ? & ?). }
  { intros [u v] He. destruct (Hes _ He) as [a Ha].
    destruct (line_graph_ends G HG u v (ex_intro _ a Ha)) as [Hu Hv].
    apply elem_of_keys in Hu, Hv. fold ns in Hu, Hv. simpl.
    by rewrite !Hpn, !decide_True. }
  assert (Hloop : for_each [N; E] (λ lyr, addlyr lyr (schema lyr)) s0
                  = (Ok tt, s3)).
  { simpl. unfold addlyr at 1. simpl features. simpl schema.
    rewrite (bind_Ok _ _ _ _ _ Hp).
    unfold addlyr. simpl features. simpl schema.
    by rewrite (bind_Ok _ _ _ _ _ Hl). }
  pose proof (read_shp_run outdir s2 [N; E] s3 Hogr2 Hfs2 Hloop) as Hback.
  assert (Hnode : ∀ n, node (graph s3) !! n
                       = if decide (n ∈ ns)
                         then Some (<["ShpName" := VStr "nodes"]> ∅) else None).
  { intros n. rewrite Hln, Hpn. simpl. by rewrite lookup_empty. }
  assert (Hedge : ∀ e, edge (graph s3) !! e
                       = if decide (e ∈ es)
                         then Some (line_attributes (stored_geometry G e)
                                      (<["ShpName" := VStr "edges"]> ∅))
                         else None).
  { intros e. rewrite Hle, Hpe. simpl. by rewrite lookup_empty. }
  exists G, s1, s2, (graph s3), s3.
  split; [exact Hread|]. split; [exact Hwrite|]. split; [exact Hback|].
  split; [|split; [|split]].
  - apply set_eq. intros n. rewrite !elem_of_dom, Hnode.
    rewrite <- (elem_of_keys (node G)). fold ns.
    destruct (decide (n ∈ ns)) as [Hin|Hnin].
    + split; [by intros _|intros _; by eexists].
    + split; [by intros [? [=]]|done].
  - apply set_eq. intros e. rewrite !elem_of_dom, Hedge.
    rewrite <- (elem_of_keys (edge G)). fold es.
    destruct (decide (e ∈ es)) as [Hin|Hnin].
    + split; [by intros _|intros _; by eexists].
    + split; [by intros [? [=]]|done].
  - intros n Hn. rewrite Hnode. apply elem_of_dom, elem_of_keys in Hn.
    fold ns in Hn. by rewrite decide_True.
  - intros [u v] a Ha. eexists. rewrite Hedge.
    rewrite decide_True by (apply elem_of_keys; by eexists).
    split; [reflexivity|].
    destruct (stored_geometry_line_graph G u v a Hrt HG Ha)
      as (Hb & Ht & Hj & _).
    rewrite !line_attributes_lookup, Hb, Ht, Hj. simpl.
    do 3 (split; [reflexivity|]). split; [reflexivity|].
    rewrite line_attributes_dom, dom_insert_L, dom_empty_L.
    apply set_eq. intros x. rewrite !elem_of_union, !elem_of_singleton.
    rewrite elem_of_empty. tauto.
Qed.

End properties.

(** ** The concrete codec decodes what it encodes *)

Lemma undigits_digits p : undigits (digits p) = Some p.
Proof. induction p as [p IH|p IH|]; simpl; by rewrite ?IH. Qed.

Lemma digits_round_trip : @wkb_round_trip digits_codec.
Proof.
  intros g. change (undigits (digits (encode g)) ≫= decode = Some g).
  rewrite undigits_digits. apply decode_encode.
Qed.

(** ** The properties on concrete inputs *)

(** C1 on the graph of [G.add_edge((0,0), (1,1))]: the edge has no
    stored geometry, and [netgeometry] does not give the line string
    from (0,0) to (1,1) but raises, out of the point branch;
    [write_shp] ends with that error and the layer of the edges has no
    feature. *)
Theorem edge_without_geometry_gets_no_line :
  @netgeometry digits_codec (EdgeKey (origin, p11)) (VDict ∅) = Raise TypeError
  ∧ @netgeometry digits_codec (EdgeKey (origin, p11)) (VDict ∅)
    ≠ Ok (mkGeometry wkbLineString [origin; p11])
  ∧ (@write_shp digits_codec "out" (fresh bare_edge_graph)).1 = Raise TypeError
  ∧ fs (@write_shp digits_codec "out" (fresh bare_edge_graph)).2 !! "out"
      ≫= (.!! 1%nat)
    = Some (mkLayer "edges" [] []).
Proof.
  split; [reflexivity|]. split; [discriminate|].
  split; vm_compute; reflexivity.
Qed.

(** C4 on the graph of [G.add_node((0,0), {'ShpName': 'pts'})], a node as
    [read_shp] makes it: [netgeometry] is handed the first value of the
    node's mapping, a string, not the mapping, and raises; no point is
    written for the node.  The same happens to a node whose mapping
    holds a text encoding. *)
Theorem node_with_attributes_not_written :
  values_or_empty {["ShpName" := VStr "pts"]} = VStr "pts"
  ∧ @netgeometry digits_codec (NodeKey origin)
      (values_or_empty {["ShpName" := VStr "pts"]}) = Raise AttributeError
  ∧ @netgeometry digits_codec (NodeKey origin)
      (values_or_empty {["Wkt" := VStr (@ExportToWkt digits_codec origin_point)]})
    = Raise AttributeError
  ∧ (@write_shp digits_codec "out" (fresh point_graph)).1 = Raise AttributeError
  ∧ fs (@write_shp digits_codec "out" (fresh point_graph)).2 !! "out"
    = Some [mkLayer "nodes" [] []].
Proof. repeat split; vm_compute; reflexivity. Qed.

Lemma missing_library_witness :
  ogr_importable (no_ogr point_graph) = false
  ∧ (@read_shp digits_codec (PyStr "in") (no_ogr point_graph)
     = (Raise (ImportError "read_shp requires OGR: http://www.gdal.org/"),
        no_ogr point_graph)
     ∧ @write_shp digits_codec "out" (no_ogr point_graph)
       = (Raise (ImportError "write_shp requires OGR: http://www.gdal.org/"),
          no_ogr point_graph)).
Proof.
  split; [reflexivity|].
  apply (@missing_library_raises_first digits_codec). reflexivity.
Defined.

(** C10 as stated fails without the library: an argument that is not a
    string then gets the import error, not an empty graph. *)
Lemma not_a_string_without_library :
  @read_shp digits_codec PyOther (no_ogr empty_DiGraph)
  = (Raise (ImportError "read_shp requires OGR: http://www.gdal.org/"),
     no_ogr empty_DiGraph)
  ∧ (@read_shp digits_codec PyOther (no_ogr empty_DiGraph)).1
    ≠ Ok empty_DiGraph.
Proof. split; [reflexivity|discriminate]. Qed.

Lemma not_a_string_witness :
  ogr_importable (fresh point_graph) = true
  ∧ @read_shp digits_codec PyOther (fresh point_graph)
    = (Ok empty_DiGraph, set_graph empty_DiGraph (fresh point_graph)).
Proof.
  split; [reflexivity|].
  apply (@read_shp_not_a_string digits_codec). reflexivity.
Defined.

Lemma line_feature_witness :
  last [origin; p11; p22] = Some p22
  ∧ (let f := mkFeature [] (Some bent_line) in
     let s' := (@addlyr_feature digits_codec roads [] f
                  (fresh empty_DiGraph)).2 in
     (@addlyr_feature digits_codec roads [] f (fresh empty_DiGraph)).1 = Ok tt
     ∧ dom (edge (graph s'))
       = {[(origin, p22)]} ∪ dom (edge (graph (fresh empty_DiGraph)))
     ∧ (∀ e, e ≠ (origin, p22) →
          edge (graph s') !! e = edge (graph (fresh empty_DiGraph)) !! e)
     ∧ dom (node (graph s'))
       = {[origin; p22]} ∪ dom (node (graph (fresh empty_DiGraph)))).
Proof.
  split; [reflexivity|].
  apply (@line_feature_one_edge digits_codec roads [] [] origin p22
           [p11; p22] (fresh empty_DiGraph)).
  reflexivity.
Defined.

(** The line through (0,0), (1,1), (2,2), read by [read_shp]: the one
    edge (0,0) -> (2,2), and the two nodes (0,0) and (2,2). *)
Example bends_read_graph :
  bends_read.1 = Ok (graph bends_read.2)
  ∧ dom (edge (graph bends_read.2)) = {[(origin, p22)]}
  ∧ dom (node (graph bends_read.2)) = {[origin; p22]}.
Proof. repeat split; vm_compute; reflexivity. Qed.

Lemma polygon_witness :
  (geometry polygon_feature = Some (mkGeometry wkbPolygon [])
   ∧ GetGeometryType (mkGeometry wkbPolygon []) ≠ wkbPoint
   ∧ GetGeometryType (mkGeometry wkbPolygon []) ≠ wkbLineString)
  ∧ ((∀ s, @addlyr_feature digits_codec roads [] polygon_feature s = (Ok tt, s))
     ∧ (∀ name sch pre post s,
          @addlyr digits_codec (mkLayer name sch (pre ++ polygon_feature :: post))
            [] s
          = @addlyr digits_codec (mkLayer name sch (pre ++ post)) [] s)).
Proof.
  split; [split; [reflexivity|split; discriminate]|].
  apply (@other_geometry_skipped digits_codec roads [] polygon_feature
           (mkGeometry wkbPolygon []));
    [reflexivity|discriminate|discriminate].
Defined.

Lemma feature_attribute_witness :
  geometry (mkFeature [VStr "x"] (Some origin_point)) = Some origin_point
  ∧ (let f := mkFeature [VStr "x"] (Some origin_point) in
     let g := origin_point in
     let lyr := towns in
     let fields := schema lyr in
     let s' := (@addlyr_feature digits_codec lyr fields f
                  (fresh empty_DiGraph)).2 in
     (∀ c, GetGeometryType g = wkbPoint → GetPoint_2D g 0 = Ok c →
        ∃ a, node (graph s') !! c = Some a
           ∧ dom a = list_to_set fields ∪ {["ShpName"]}
           ∧ a !! "ShpName" = Some (VStr (GetName lyr))
           ∧ ∀ x, x ∈ fields → x ≠ "ShpName" →
                  a !! x = Some (field_value lyr f x))
     ∧ (∀ u v, GetGeometryType g = wkbLineString →
         GetPoint_2D g 0 = Ok u → GetPoint_2D g (GetPointCount g - 1) = Ok v →
        ∃ a, edge (graph s') !! (u, v) = Some a
           ∧ dom a = list_to_set fields ∪ {["ShpName"]}
                     ∪ {["Wkb"; "Wkt"; "Json"]}
           ∧ a !! "ShpName" = Some (VStr (GetName lyr))
           ∧ a !! "Wkb" = Some (VStr (@ExportToWkb digits_codec g))
           ∧ a !! "Wkt" = Some (VStr (@ExportToWkt digits_codec g))
           ∧ a !! "Json" = Some (VStr (@ExportToJson digits_codec g))
           ∧ ∀ x, x ∈ fields → x ∉ ["ShpName"; "Wkb"; "Wkt"; "Json"] →
                  a !! x = Some (field_value lyr f x))).
Proof.
  split; [reflexivity|].
  apply (@feature_attribute_mapping digits_codec towns
           (mkFeature [VStr "x"] (Some origin_point)) origin_point
           (fresh empty_DiGraph)).
  reflexivity.
Defined.

Lemma last_point_feature_witness :
  (@read_shp digits_codec (PyStr "pts") (disk "pts" [wells; towns])
   = (Ok (graph two_points_read.2), two_points_read.2)
   ∧ fs (disk "pts" [wells; towns]) !! "pts" = Some ([wells] ++ towns :: [])
   ∧ features towns = [] ++ mkFeature [VStr "x"] (Some origin_point) :: []
   ∧ point_at origin (mkFeature [VStr "x"] (Some origin_point))
   ∧ (∀ f', f' ∈ @nil Feature → ¬ point_at origin f')
   ∧ (∀ lyr' f', lyr' ∈ @nil Layer → f' ∈ features lyr' →
        ¬ point_at origin f'))
  ∧ node (graph two_points_read.2) !! origin
    = Some (feature_attributes towns (schema towns)
              (mkFeature [VStr "x"] (Some origin_point))).
Proof.
  assert (Hread : @read_shp digits_codec (PyStr "pts") (disk "pts" [wells; towns])
                  = (Ok (graph two_points_read.2), two_points_read.2))
    by (vm_compute; reflexivity).
  assert (Hpt : point_at origin (mkFeature [VStr "x"] (Some origin_point)))
    by (exists origin_point; repeat split).
  assert (Hnone : ∀ f', f' ∈ @nil Feature → ¬ point_at origin f')
    by (intros f' Hf'; by apply elem_of_nil in Hf').
  assert (Hnone' : ∀ lyr' f', lyr' ∈ @nil Layer → f' ∈ features lyr' →
                     ¬ point_at origin f')
    by (intros lyr' f' Hl; by apply elem_of_nil in Hl).
  split; [repeat split; (exact Hread || exact Hpt || exact Hnone || exact Hnone')|].
  exact (@last_point_feature_wins digits_codec "pts" (disk "pts" [wells; towns])
           two_points_read.2 (graph two_points_read.2) [wells] [] towns
           [] [] (mkFeature [VStr "x"] (Some origin_point)) origin
           Hread eq_refl eq_refl Hpt Hnone Hnone').
Defined.

(** What the node keeps in that run: the name of the second layer and
    its field, and nothing of the first layer's [depth]. *)
Example two_points_read_node :
  node (graph two_points_read.2) !! origin
  = Some (<["ShpName" := VStr "towns"]> {["name" := VStr "x"]})
  ∧ size (node (graph two_points_read.2)) = 1%nat.
Proof. split; vm_compute; reflexivity. Qed.

(** Under a container that updates the mapping of a node that is there
    instead of replacing it, two point features of one layer give the
    same node: their mappings have the same keys. *)
Lemma same_layer_update_is_replace lyr fields f1 f2 :
  feature_attributes lyr fields f2 ∪ feature_attributes lyr fields f1
  = feature_attributes lyr fields f2.
Proof.
  apply map_eq. intros x. rewrite lookup_union, !feature_attributes_lookup.
  by repeat case_decide.
Qed.

(** C9 as stated fails on [roads], a line shapefile with one segment:
    the three calls return, and the graph read back has other
    attributes than the graph written, on its nodes and, the encodings
    left out, on its edge. *)
Lemma round_trip_loses_attributes :
  roads_read = (Ok (graph roads_read.2), roads_read.2)
  ∧ roads_written.1 = Ok tt
  ∧ roads_read_back = (Ok (graph roads_read_back.2), roads_read_back.2)
  ∧ ¬ same_up_to_encodings (graph roads_read.2) (graph roads_read_back.2)
  ∧ node (graph roads_read.2) !! origin = Some ∅
  ∧ node (graph roads_read_back.2) !! origin
    = Some (<["ShpName" := VStr "nodes"]> ∅)
  ∧ strip_encodings <$> edge (graph roads_read.2) !! (origin, p11)
    = Some (<["ShpName" := VStr "roads"]> {["name" := VStr "a"]})
  ∧ strip_encodings <$> edge (graph roads_read_back.2) !! (origin, p11)
    = Some (<["ShpName" := VStr "edges"]> ∅).
Proof.
  split; [vm_compute; reflexivity|]. split; [vm_compute; reflexivity|].
  split; [vm_compute; reflexivity|]. split.
  - intros [Hn _].
    apply (f_equal (λ m : gmap coord attrs, m !! origin ≫= (.!! "ShpName")))
      in Hn.
    vm_compute in Hn. discriminate.
  - repeat split; vm_compute; reflexivity.
Qed.

Lemma round_trip_witness :
  (@wkb_round_trip digits_codec
   ∧ ogr_importable (disk "in" [roads]) = true
   ∧ fs (disk "in" [roads]) !! "in" = Some [roads]
   ∧ line_source [roads]
   ∧ fs (disk "in" [roads]) !! "out" = None)
  ∧ ∃ G s1 s2 G' s3,
      @read_shp digits_codec (PyStr "in") (disk "in" [roads]) = (Ok G, s1)
      ∧ @write_shp digits_codec "out" s1 = (Ok tt, s2)
      ∧ @read_shp digits_codec (PyStr "out") s2 = (Ok G', s3)
      ∧ dom (node G') = dom (node G)
      ∧ dom (edge G') = dom (edge G)
      ∧ (∀ n, n ∈ dom (node G) →
           node G' !! n = Some (<["ShpName" := VStr "nodes"]> ∅))
      ∧ (∀ e a, edge G !! e = Some a →
           ∃ a', edge G' !! e = Some a'
               ∧ a' !! "Wkb" = a !! "Wkb"
               ∧ a' !! "Wkt" = a !! "Wkt"
               ∧ a' !! "Json" = a !! "Json"
               ∧ a' !! "ShpName" = Some (VStr "edges")
               ∧ dom a' = {["ShpName"; "Wkb"; "Wkt"; "Json"]}).
Proof.
  assert (Hlines : line_source [roads]).
  { intros lyr f Hlyr Hf. apply list_elem_of_singleton in Hlyr as ->.
    apply list_elem_of_singleton in Hf as ->. by exists origin, [p11]. }
  split; [repeat split; (exact digits_round_trip || exact Hlines)|].
  exact (@round_trip_of_line_graphs digits_codec "in" "out" [roads]
           (disk "in" [roads]) digits_round_trip eq_refl eq_refl Hlines eq_refl).
Defined.

(** ** Further properties of the two functions *)

Section further_properties.
Context {codec : OgrCodec}.

(** *** What [read_shp] does to the disk *)

Lemma read_shp_found path s shp :
  ogr_importable s = true → fs s !! path = Some shp →
  read_shp (PyStr path) s
  = bind (for_each shp (λ lyr, addlyr lyr (schema lyr))) (λ _, gets graph)
      (log (AOpen path) (set_graph empty_DiGraph s)).
Proof.
  intros Hogr Hshp. unfold read_shp.
  rewrite (bind_Ok _ _ s tt s) by (unfold import_ogr; by rewrite Hogr).
  rewrite (bind_Ok _ _ s tt (set_graph empty_DiGraph s)) by reflexivity.
  unfold bind at 1 3.
  rewrite (bind_Ok _ _ _ _ _
    (ogr_Open_run path (set_graph empty_DiGraph s) shp Hshp)).
  reflexivity.
Qed.

Lemma read_shp_not_found path s :
  ogr_importable s = true → fs s !! path = None →
  read_shp (PyStr path) s
  = (Raise LibraryError, log (AOpen path) (set_graph empty_DiGraph s)).
Proof.
  intros Hogr Hshp. unfold read_shp.
  rewrite (bind_Ok _ _ s tt s) by (unfold import_ogr; by rewrite Hogr).
  rewrite (bind_Ok _ _ s tt (set_graph empty_DiGraph s)) by reflexivity.
  apply bind_Raise. apply bind_Raise.
  unfold ogr_Open, bind, modify, gets. simpl. by rewrite Hshp.
Qed.

(** X1: [read_shp] only reads.  Whatever its argument and whether it
    returns or raises, the data sources on disk are afterwards what they
    were, and it makes at most one access to the file system: opening
    the path it is given. *)
Theorem read_shp_only_opens (path : pyarg) (s : State) :
  fs (read_shp path s).2 = fs s
  ∧ ogr_importable (read_shp path s).2 = ogr_importable s
  ∧ (trace (read_shp path s).2 = trace s
     ∨ ∃ p, path = PyStr p ∧ trace (read_shp path s).2 = AOpen p :: trace s).
Proof.
  destruct (ogr_importable s) eqn:Hogr.
  - destruct path as [p|].
    + destruct (fs s !! p) as [shp|] eqn:Hp.
      * rewrite (read_shp_found p s shp Hogr Hp).
        set (s0 := log (AOpen p) (set_graph empty_DiGraph s)).
        pose proof (read_loop_preserves fs shp (λ _ _, eq_refl) s0) as Hfs.
        pose proof (read_loop_preserves ogr_importable shp (λ _ _, eq_refl) s0)
          as Ho.
        pose proof (read_loop_preserves trace shp (λ _ _, eq_refl) s0) as Ht.
        unfold bind.
        destruct (for_each shp _ s0) as [[[]|e] s1]; simpl in *;
          (split; [exact Hfs|]; split; [by rewrite Ho|]; right; by exists p).
      * rewrite (read_shp_not_found p s Hogr Hp). simpl.
        split; [done|]. split; [done|]. right. by exists p.
    + unfold read_shp, bind, import_ogr. rewrite Hogr. simpl.
      split; [done|]. split; [done|]. by left.
  - unfold read_shp, bind, import_ogr. rewrite Hogr. simpl.
    split; [done|]. split; [done|]. by left.
Qed.

(** *** What [write_shp] does to the disk *)

Lemma G_node_preserves {B} (proj : State → B) n : preserves proj (G_node n).
Proof.
  unfold G_node. apply preserves_bind; [apply preserves_gets|intros G].
  apply preserves_match_option; [intros a; apply preserves_ret|].
  apply preserves_raise.
Qed.

Lemma G_get_edge_data_preserves {B} (proj : State → B) e :
  preserves proj (G_get_edge_data e).
Proof.
  unfold G_get_edge_data.
  apply preserves_bind; [apply preserves_gets|intros G]. apply preserves_ret.
Qed.

Lemma write_shp_preserves {B} (proj : State → B) outdir :
  preserves proj (CreateDataSource outdir) →
  (∀ name, preserves proj (CreateLayer outdir name)) →
  (∀ g lyr, preserves proj (create_feature g outdir lyr)) →
  preserves proj (write_shp outdir).
Proof.
  intros Hds Hlyr Hfeat. unfold write_shp.
  apply preserves_bind; [apply preserves_import_ogr|intros _].
  apply preserves_bind; [exact Hds|intros _].
  apply preserves_bind; [apply Hlyr|intros nodes].
  apply preserves_bind; [apply preserves_gets|intros ns].
  apply preserves_bind.
  { apply preserves_for_each. intros n.
    apply preserves_bind; [apply G_node_preserves|intros a].
    apply preserves_bind; [apply preserves_lift|intros g]. apply Hfeat. }
  intros _.
  apply preserves_bind; [apply Hlyr|intros edges].
  apply preserves_bind; [apply preserves_gets|intros es].
  apply preserves_for_each. intros e.
  apply preserves_bind; [apply G_get_edge_data_preserves|intros data].
  apply preserves_bind; [apply preserves_lift|intros g]. apply Hfeat.
Qed.

(** X2: [write_shp] touches its output directory only: the data source
    at any other path is afterwards what it was, whether the call
    returns or raises. *)
Theorem write_shp_other_paths_untouched (outdir path : string) (s : State) :
  path ≠ outdir →
  fs (write_shp outdir s).2 !! path = fs s !! path.
Proof.
  intros Hne. revert s.
  change (preserves (λ s, fs s !! path) (write_shp outdir)).
  apply write_shp_preserves.
  - intros s. unfold CreateDataSource, bind, modify, gets. simpl.
    destruct (fs s !! outdir); simpl; [done|by apply lookup_insert_ne].
  - intros name s. unfold CreateLayer, bind, modify, gets, ret. simpl.
    destruct (fs s !! outdir); simpl; [by apply lookup_insert_ne|done].
  - intros g lyr. unfold create_feature, CreateFeature.
    apply preserves_bind; [by apply preserves_modify|intros _].
    apply preserves_modify. intros s. simpl. by apply lookup_alter_ne.
Qed.

(** X3: when the output path is taken, the creation of the data source
    fails and [write_shp] ends there with the library's error: the one
    access made is that attempt, no layer and no feature is created, and
    the disk and the graph are as before. *)
Theorem write_shp_taken_path (outdir : string) (shp : DataSource) (s : State) :
  ogr_importable s = true → fs s !! outdir = Some shp →
  write_shp outdir s = (Raise LibraryError, log (ACreateDataSource outdir) s).
Proof.
  intros Hogr Hshp. unfold write_shp.
  rewrite (bind_Ok _ _ s tt s) by (unfold import_ogr; by rewrite Hogr).
  apply bind_Raise. unfold CreateDataSource, bind, modify, gets. simpl.
  by rewrite Hshp.
Qed.

(** *** Which geometry [netgeometry] takes *)

(** X4: a stored binary encoding comes first.  When the mapping holds a
    string under [Wkb], the geometry is what that string decodes to (the
    library's error when it decodes to nothing), for a node key and an
    edge key alike and whatever the mapping holds under [Wkt]. *)
Theorem netgeometry_binary_first (key : pykey) (d : attrs) (w : string) :
  d !! "Wkb" = Some (VStr w) →
  netgeometry key (VDict d)
  = match CreateGeometryFromWkb w with
    | Some g => Ok g
    | None => Raise LibraryError
    end.
Proof.
  intros Hb. unfold netgeometry, has_key, getitem, decode_with. rewrite Hb.
  rewrite bool_decide_eq_true_2 by eauto. simpl.
  destruct (CreateGeometryFromWkb w); reflexivity.
Qed.

(** X5: the text encoding is used only when there is no binary one:
    with a string under [Wkt] and no entry [Wkb], the geometry is what
    the text decodes to, whatever the key. *)
Theorem netgeometry_text_second (key : pykey) (d : attrs) (t : string) :
  d !! "Wkb" = None → d !! "Wkt" = Some (VStr t) →
  netgeometry key (VDict d)
  = match CreateGeometryFromWkt t with
    | Some g => Ok g
    | None => Raise LibraryError
    end.
Proof.
  intros Hb Ht. unfold netgeometry, has_key, getitem, decode_with.
  rewrite Hb, Ht.
  rewrite bool_decide_eq_false_2 by (by intros [? [=]]).
  rewrite bool_decide_eq_true_2 by eauto. simpl.
  destruct (CreateGeometryFromWkt t); reflexivity.
Qed.

(** *** Attributes by column *)

Lemma index_of_lookup (l : list string) i x :
  NoDup l → l !! i = Some x → index_of x l = Some i.
Proof.
  revert i. induction l as [|y l IH]; intros i Hnd Hi; [done|].
  apply NoDup_cons in Hnd as [Hy Hnd]. destruct i as [|i]; simpl in *.
  - injection Hi as ->. by rewrite decide_True.
  - rewrite decide_False.
    + by rewrite (IH i Hnd Hi).
    + intros ->. apply Hy. by eapply list_elem_of_lookup_2.
Qed.

(** X6: in a layer whose field names differ from one another, the
    attribute under a field's name is the value the feature holds in
    that field's column, and [None] when the feature holds no value
    there; only a field called [ShpName] is hidden by the layer's
    name. *)
Theorem attribute_of_column (lyr : Layer) (f : Feature) (i : nat) (x : string) :
  NoDup (schema lyr) → schema lyr !! i = Some x → x ≠ "ShpName" →
  feature_attributes lyr (schema lyr) f !! x
  = Some (default VNone (fvalues f !! i)).
Proof.
  intros Hnd Hi Hx. rewrite feature_attributes_lookup.
  rewrite decide_False by done.
  rewrite decide_True by (by eapply list_elem_of_lookup_2).
  unfold field_value, GetFieldIndex, GetField.
  rewrite (index_of_lookup _ _ _ Hnd Hi).
  rewrite decide_True by lia. by rewrite Nat2Z.id.
Qed.

(** *** Features that stop the read *)

(** X7: a feature without geometry is not skipped: [addlyr] raises at it.
    The features before it have gone into the graph, the features after
    it are never looked at. *)
Theorem feature_without_geometry_stops (name : string) (sch fields : list string)
    (pre post : list Feature) (f : Feature) (s s1 : State) :
  let lyr := mkLayer name sch (pre ++ f :: post) in
  geometry f = None →
  for_each pre (addlyr_feature lyr fields) s = (Ok tt, s1) →
  addlyr lyr fields s = (Raise AttributeError, s1).
Proof.
  intros lyr Hg Hpre. unfold addlyr. simpl features.
  rewrite for_each_app, (bind_Ok _ _ _ _ _ Hpre). simpl.
  apply bind_Raise. unfold addlyr_feature. by rewrite Hg.
Qed.

(** *** The nodes and edges of the graph read *)

Lemma point_at_iff f g (n c : coord) :
  geometry f = Some g → GetGeometryType g = wkbPoint → GetPoint_2D g 0 = Ok c →
  point_at n f ↔ n = c.
Proof.
  intros Hg Hty Hc. split.
  - intros (g' & Hg' & _ & Hc'). rewrite Hg in Hg'. injection Hg' as <-.
    rewrite Hc in Hc'. by injection Hc'.
  - intros ->. by exists g.
Qed.

Lemma line_from_to_iff f g (e : coord * coord) u v :
  geometry f = Some g → GetGeometryType g = wkbLineString →
  GetPoint_2D g 0 = Ok u → GetPoint_2D g (GetPointCount g - 1) = Ok v →
  line_from_to e f ↔ e = (u, v).
Proof.
  intros Hg Hty Hu Hv. split.
  - intros (g' & Hg' & _ & Hu' & Hv'). rewrite Hg in Hg'. injection Hg' as <-.
    rewrite Hu in Hu'. rewrite Hv in Hv'. destruct e. simpl in *. congruence.
  - intros ->. by exists g.
Qed.

Lemma not_point_at f g (n : coord) :
  geometry f = Some g → GetGeometryType g ≠ wkbPoint → ¬ point_at n f.
Proof.
  intros Hg Hty (g' & Hg' & Hty' & _). rewrite Hg in Hg'. injection Hg' as <-.
  done.
Qed.

Lemma not_line_from_to f g (e : coord * coord) :
  geometry f = Some g → GetGeometryType g ≠ wkbLineString → ¬ line_from_to e f.
Proof.
  intros Hg Hty (g' & Hg' & Hty' & _). rewrite Hg in Hg'. injection Hg' as <-.
  done.
Qed.

(** The nodes and edges after a feature that was read. *)
Lemma addlyr_feature_Ok_dom lyr fields f s s' :
  addlyr_feature lyr fields f s = (Ok tt, s') →
  (∀ e, e ∈ dom (edge (graph s'))
        ↔ e ∈ dom (edge (graph s)) ∨ line_from_to e f)
  ∧ (∀ n, n ∈ dom (node (graph s'))
          ↔ n ∈ dom (node (graph s)) ∨ node_from n f).
Proof.
  unfold addlyr_feature, node_from.
  destruct (geometry f) as [g|] eqn:Hg; [|discriminate].
  unfold bind, lift, ret, add_node, add_edge, modify.
  destruct (decide (GetGeometryType g = wkbPoint)) as [Hp|Hp].
  - assert (Hnl : GetGeometryType g ≠ wkbLineString)
      by (rewrite Hp; apply wkbPoint_not_LineString).
    rewrite (decide_False (P := GetGeometryType g = wkbLineString)) by done.
    destruct (GetPoint_2D g 0) as [c|err] eqn:Hc; simpl; [|discriminate].
    intros [= <-]. simpl. split.
    + intros e. pose proof (not_line_from_to f g e Hg Hnl). tauto.
    + intros n. rewrite dom_insert_L, elem_of_union, elem_of_singleton.
      rewrite (point_at_iff f g n c Hg Hp Hc). split; [tauto|].
      intros [?|[?|(e & He & _)]]; [tauto..|].
      by destruct (not_line_from_to f g e Hg Hnl).
  - destruct (decide (GetGeometryType g = wkbLineString)) as [Hl|Hl].
    + destruct (GetPoint_2D g 0) as [u|err] eqn:Hu; simpl; [|discriminate].
      destruct (GetPoint_2D g (GetPointCount g - 1)) as [v|err] eqn:Hv; simpl;
        [|discriminate].
      intros [= <-]. simpl. split.
      * intros e. rewrite dom_insert_L, elem_of_union, elem_of_singleton.
        rewrite (line_from_to_iff f g e u v Hg Hl Hu Hv). tauto.
      * intros n. rewrite !dom_touch_node, !elem_of_union, !elem_of_singleton.
        pose proof (not_point_at f g n Hg Hp). split.
        -- intros [->|[->|?]]; [| |tauto]; right; right; exists (u, v);
             (split; [by exists g|simpl; tauto]).
        -- intros [?|[?|(e & He & Hn)]]; [tauto..|].
           apply (line_from_to_iff f g e u v Hg Hl Hu Hv) in He as ->.
           simpl in Hn. tauto.
    + intros [= <-]. split.
      * intros e. pose proof (not_line_from_to f g e Hg Hl). tauto.
      * intros n. pose proof (not_point_at f g n Hg Hp). split; [tauto|].
        intros [?|[?|(e & He & _)]]; [tauto..|].
        by destruct (not_line_from_to f g e Hg Hl).
Qed.

Lemma addlyr_Ok_dom lyr fields (l : list Feature) s s' :
  for_each l (addlyr_feature lyr fields) s = (Ok tt, s') →
  (∀ e, e ∈ dom (edge (graph s'))
        ↔ e ∈ dom (edge (graph s)) ∨ ∃ f, f ∈ l ∧ line_from_to e f)
  ∧ (∀ n, n ∈ dom (node (graph s'))
          ↔ n ∈ dom (node (graph s)) ∨ ∃ f, f ∈ l ∧ node_from n f).
Proof.
  revert s. induction l as [|f l IH]; intros s Hrun; simpl in Hrun.
  - injection Hrun as <-. split; intros x; (split; [tauto|]);
      intros [?|(f & Hf & _)]; [done| |done|]; by apply elem_of_nil in Hf.
  - apply bind_Ok_inv in Hrun as ([] & s1 & Hf & Hl).
    destruct (addlyr_feature_Ok_dom _ _ _ _ _ Hf) as [He1 Hn1].
    destruct (IH _ Hl) as [He Hn]. split.
    + intros e. rewrite He, He1. split.
      * intros [[?|?]|(f' & Hf' & ?)]; [tauto| |].
        -- right. exists f. split; [left|done].
        -- right. exists f'. split; [by right|done].
      * intros [?|(f' & Hf' & ?)]; [tauto|].
        apply elem_of_cons in Hf' as [->|Hf']; [tauto|]. right. by exists f'.
    + intros n. rewrite Hn, Hn1. split.
      * intros [[?|?]|(f' & Hf' & ?)]; [tauto| |].
        -- right. exists f. split; [left|done].
        -- right. exists f'. split; [by right|done].
      * intros [?|(f' & Hf' & ?)]; [tauto|].
        apply elem_of_cons in Hf' as [->|Hf']; [tauto|]. right. by exists f'.
Qed.

Lemma read_loop_Ok_dom (shp : DataSource) s s' :
  for_each shp (λ lyr, addlyr lyr (schema lyr)) s = (Ok tt, s') →
  (∀ e, e ∈ dom (edge (graph s'))
        ↔ e ∈ dom (edge (graph s)) ∨ ∃ f, feature_of shp f ∧ line_from_to e f)
  ∧ (∀ n, n ∈ dom (node (graph s'))
          ↔ n ∈ dom (node (graph s)) ∨ ∃ f, feature_of shp f ∧ node_from n f).
Proof.
  unfold feature_of.
  revert s. induction shp as [|lyr shp IH]; intros s Hrun; simpl in Hrun.
  - injection Hrun as <-. split; intros x; (split; [tauto|]);
      intros [?|(f & (lyr & Hlyr & _) & _)]; [done| |done|];
      by apply elem_of_nil in Hlyr.
  - apply bind_Ok_inv in Hrun as ([] & s1 & Hlyr & Hrest).
    destruct (addlyr_Ok_dom _ _ _ _ _ Hlyr) as [He1 Hn1].
    destruct (IH _ Hrest) as [He Hn]. split.
    + intros e. rewrite He, He1. split.
      * intros [[?|(f & Hf & ?)]|(f & (l' & Hl' & Hf) & ?)]; [tauto| |].
        -- right. exists f. split; [|done]. exists lyr. split; [left|done].
        -- right. exists f. split; [|done]. exists l'. split; [by right|done].
      * intros [?|(f & (l' & Hl' & Hf) & ?)]; [tauto|].
        apply elem_of_cons in Hl' as [->|Hl'].
        -- left. right. by exists f.
        -- right. exists f. split; [|done]. by exists l'.
    + intros n. rewrite Hn, Hn1. split.
      * intros [[?|(f & Hf & ?)]|(f & (l' & Hl' & Hf) & ?)]; [tauto| |].
        -- right. exists f. split; [|done]. exists lyr. split; [left|done].
        -- right. exists f. split; [|done]. exists l'. split; [by right|done].
      * intros [?|(f & (l' & Hl' & Hf) & ?)]; [tauto|].
        apply elem_of_cons in Hl' as [->|Hl'].
        -- left. right. by exists f.
        -- right. exists f. split; [|done]. by exists l'.
Qed.

(** What a returning [read_shp] of a path has gone through. *)
Lemma read_shp_Ok_inv path s G s' :
  read_shp (PyStr path) s = (Ok G, s') →
  ∃ shp, fs s !! path = Some shp ∧ G = graph s'
       ∧ for_each shp (λ lyr, addlyr lyr (schema lyr))
           (log (AOpen path) (set_graph empty_DiGraph s)) = (Ok tt, s').
Proof.
  intros Hread.
  destruct (ogr_importable s) eqn:Hogr.
  - destruct (fs s !! path) as [shp|] eqn:Hp.
    + exists shp. rewrite (read_shp_found path s shp Hogr Hp) in Hread.
      apply bind_Ok_inv in Hread as ([] & s1 & Hloop & Hret).
      injection Hret as <- <-. done.
    + by rewrite (read_shp_not_found path s Hogr Hp) in Hread.
  - unfold read_shp, bind, import_ogr in Hread. by rewrite Hogr in Hread.
Qed.

(** X8: the graph [read_shp] returns has exactly the edges and nodes the
    features give: a pair is an edge if and only if some line feature of
    the data source runs from its first to its second coordinate, and a
    coordinate is a node if and only if some feature is a point there or
    a line ending there. *)
Theorem read_shp_nodes_and_edges (path : string) (shp : DataSource)
    (s s' : State) (G : DiGraph) :
  read_shp (PyStr path) s = (Ok G, s') → fs s !! path = Some shp →
  (∀ e, e ∈ dom (edge G) ↔ ∃ f, feature_of shp f ∧ line_from_to e f)
  ∧ (∀ n, n ∈ dom (node G) ↔ ∃ f, feature_of shp f ∧ node_from n f).
Proof.
  intros Hread Hshp.
  apply read_shp_Ok_inv in Hread as (shp' & Hshp' & -> & Hloop).
  rewrite Hshp in Hshp'. injection Hshp' as <-.
  destruct (read_loop_Ok_dom _ _ _ Hloop) as [He Hn]. simpl in He, Hn. split.
  - intros e. rewrite He, dom_empty_L, elem_of_empty. tauto.
  - intros n. rewrite Hn, dom_empty_L, elem_of_empty. tauto.
Qed.

(** *** What the edges of the graph read carry *)

(** The edges after a feature that was read: the edges before it, and
    for a line feature the edge along it with the feature's mapping. *)
Lemma addlyr_feature_Ok_edge lyr fields f s s' :
  addlyr_feature lyr fields f s = (Ok tt, s') →
  ∀ e a, edge (graph s') !! e = Some a →
    edge (graph s) !! e = Some a
    ∨ ∃ g, geometry f = Some g ∧ GetGeometryType g = wkbLineString
         ∧ GetPoint_2D g 0 = Ok e.1
         ∧ GetPoint_2D g (GetPointCount g - 1) = Ok e.2
         ∧ a = line_attributes g (feature_attributes lyr fields f).
Proof.
  unfold addlyr_feature.
  destruct (geometry f) as [g|] eqn:Hg; [|discriminate].
  unfold bind, lift, ret, add_node, add_edge, modify.
  destruct (decide (GetGeometryType g = wkbPoint)) as [Hp|Hp].
  - rewrite (decide_False (P := GetGeometryType g = wkbLineString))
      by (rewrite Hp; apply wkbPoint_not_LineString).
    destruct (GetPoint_2D g 0) as [c|err]; simpl; [|discriminate].
    intros [= <-] e a He. by left.
  - destruct (decide (GetGeometryType g = wkbLineString)) as [Hl|Hl].
    + destruct (GetPoint_2D g 0) as [u|err] eqn:Hu; simpl; [|discriminate].
      destruct (GetPoint_2D g (GetPointCount g - 1)) as [v|err] eqn:Hv; simpl;
        [|discriminate].
      intros [= <-] e a. simpl.
      destruct (decide ((u, v) = e)) as [<-|Hne].
      * rewrite lookup_insert_eq. intros [= <-]. right. by exists g.
      * rewrite lookup_insert_ne by done. by left.
    + intros [= <-] e a He. by left.
Qed.

Lemma addlyr_Ok_edge lyr fields (l : list Feature) s s' :
  for_each l (addlyr_feature lyr fields) s = (Ok tt, s') →
  ∀ e a, edge (graph s') !! e = Some a →
    edge (graph s) !! e = Some a
    ∨ ∃ f g, f ∈ l ∧ geometry f = Some g ∧ GetGeometryType g = wkbLineString
         ∧ GetPoint_2D g 0 = Ok e.1
         ∧ GetPoint_2D g (GetPointCount g - 1) = Ok e.2
         ∧ a = line_attributes g (feature_attributes lyr fields f).
Proof.
  revert s. induction l as [|f l IH]; intros s Hrun e a He; simpl in Hrun.
  - injection Hrun as <-. by left.
  - apply bind_Ok_inv in Hrun as ([] & s1 & Hf & Hl).
    destruct (IH _ Hl e a He) as [He1|(f' & g & Hf' & Hrest)].
    + destruct (addlyr_feature_Ok_edge _ _ _ _ _ Hf e a He1)
        as [He0|(g & Hrest)]; [by left|].
      right. exists f, g. split; [left|exact Hrest].
    + right. exists f', g. split; [by right|exact Hrest].
Qed.

Lemma read_loop_Ok_edge (shp : DataSource) s s' :
  for_each shp (λ lyr, addlyr lyr (schema lyr)) s = (Ok tt, s') →
  ∀ e a, edge (graph s') !! e = Some a →
    edge (graph s) !! e = Some a
    ∨ ∃ lyr f g, lyr ∈ shp ∧ f ∈ features lyr
         ∧ geometry f = Some g ∧ GetGeometryType g = wkbLineString
         ∧ GetPoint_2D g 0 = Ok e.1
         ∧ GetPoint_2D g (GetPointCount g - 1) = Ok e.2
         ∧ a = line_attributes g (feature_attributes lyr (schema lyr) f).
Proof.
  revert s. induction shp as [|lyr shp IH]; intros s Hrun e a He;
    simpl in Hrun.
  - injection Hrun as <-. by left.
  - apply bind_Ok_inv in Hrun as ([] & s1 & Hlyr & Hrest).
    destruct (IH _ Hrest e a He) as [He1|(lyr' & f & g & Hl' & Hmore)].
    + destruct (addlyr_Ok_edge _ _ _ _ _ Hlyr e a He1)
        as [He0|(f & g & Hf & Hmore)]; [by left|].
      right. exists lyr, f, g. split; [left|]. by split.
    + right. exists lyr', f, g. split; [by right|exact Hmore].
Qed.

(** X9: every edge of the graph [read_shp] returns carries the three
    encodings of one line feature of the data source that runs from the
    edge's source to its target, and under [ShpName] the name of that
    feature's layer.  [netgeometry] therefore finds a binary encoding on
    every edge of a graph that was read. *)
Theorem read_shp_edges_carry_geometry (path : string) (shp : DataSource)
    (s s' : State) (G : DiGraph) (e : coord * coord) (a : attrs) :
  read_shp (PyStr path) s = (Ok G, s') → fs s !! path = Some shp →
  edge G !! e = Some a →
  ∃ lyr f g, lyr ∈ shp ∧ f ∈ features lyr ∧ geometry f = Some g
    ∧ GetGeometryType g = wkbLineString
    ∧ GetPoint_2D g 0 = Ok e.1
    ∧ GetPoint_2D g (GetPointCount g - 1) = Ok e.2
    ∧ a !! "Wkb" = Some (VStr (ExportToWkb g))
    ∧ a !! "Wkt" = Some (VStr (ExportToWkt g))
    ∧ a !! "Json" = Some (VStr (ExportToJson g))
    ∧ a !! "ShpName" = Some (VStr (GetName lyr)).
Proof.
  intros Hread Hshp He.
  apply read_shp_Ok_inv in Hread as (shp' & Hshp' & -> & Hloop).
  rewrite Hshp in Hshp'. injection Hshp' as <-.
  destruct (read_loop_Ok_edge _ _ _ Hloop e a He)
    as [He0|(lyr & f & g & Hlyr & Hf & Hg & Hty & Hu & Hv & ->)].
  { simpl in He0. by rewrite lookup_empty in He0. }
  exists lyr, f, g. do 6 (split; [done|]).
  rewrite !line_attributes_lookup.
  repeat split; rewrite ?feature_attributes_lookup; by repeat case_decide.
Qed.

(** *** What [write_shp] leaves on disk *)

(** A loop that ends and creates one feature per element has appended
    these features, in order, to the layer. *)
Lemma write_loop_Ok {A} (l : list A) (body : A → M unit) (mk : A → Feature)
    (G : DiGraph) shpdir lyr :
  (∀ x s s1, graph s = G → body x s = (Ok tt, s1) →
             s1 = written shpdir lyr (mk x) s) →
  ∀ s s' ds nm sch feats,
    for_each l body s = (Ok tt, s') →
    graph s = G → fs s !! shpdir = Some ds →
    ds !! lyr = Some (mkLayer nm sch feats) →
    graph s' = G
    ∧ fs s' = <[shpdir := <[lyr := mkLayer nm sch (feats ++ map mk l)]> ds]>
                (fs s).
Proof.
  intros Hbody.
  induction l as [|x l IH]; intros s s' ds nm sch feats Hrun HG Hds HL;
    simpl in Hrun.
  - injection Hrun as <-.
    by rewrite app_nil_r, (list_insert_id _ _ _ HL), (insert_id _ _ _ Hds).
  - apply bind_Ok_inv in Hrun as ([] & s1 & Hx & Hrun).
    pose proof (Hbody x s s1 HG Hx) as ->.
    pose proof (written_fs shpdir lyr (mk x) s ds _ Hds HL) as Hfs1.
    destruct (IH (written shpdir lyr (mk x) s) s'
                (<[lyr := Layer_add (mk x) (mkLayer nm sch feats)]> ds)
                nm sch (feats ++ [mk x]) Hrun HG)
      as (HG' & Hfs').
    + rewrite Hfs1. apply lookup_insert_eq.
    + apply list_lookup_insert_eq. by eapply lookup_lt_Some.
    + split; [exact HG'|].
      rewrite Hfs', Hfs1, insert_insert_eq, list_insert_insert_eq.
      by rewrite <- app_assoc.
Qed.

Lemma CreateDataSource_Ok_inv outdir s s1 :
  CreateDataSource outdir s = (Ok tt, s1) →
  fs s !! outdir = None
  ∧ s1 = set_fs (<[outdir := []]> (fs s)) (log (ACreateDataSource outdir) s).
Proof.
  unfold CreateDataSource, bind, modify, gets, raise. simpl.
  destruct (fs s !! outdir); [discriminate|]. by intros [= <-].
Qed.

Lemma node_step_Ok G outdir lyr n s s1 :
  graph s = G →
  bind (G_node n) (λ a,
    bind (lift (netgeometry (NodeKey n) (values_or_empty a)))
      (λ g, create_feature g outdir lyr)) s = (Ok tt, s1) →
  s1 = written outdir lyr (node_feature G n) s.
Proof.
  intros HG. unfold G_node, bind, gets, lift, raise, ret, node_feature.
  rewrite HG. destruct (node G !! n) as [a|]; simpl; [|discriminate].
  destruct (netgeometry (NodeKey n) (values_or_empty a)) as [g|e]; simpl;
    [|discriminate].
  by intros [= <-].
Qed.

Lemma edge_step_Ok G outdir lyr e s s1 :
  graph s = G →
  bind (G_get_edge_data e) (λ data,
    bind (lift (netgeometry (EdgeKey e) data))
      (λ g, create_feature g outdir lyr)) s = (Ok tt, s1) →
  s1 = written outdir lyr (edge_feature G e) s.
Proof.
  intros HG. unfold G_get_edge_data, bind, gets, lift, ret, edge_feature.
  rewrite HG. simpl.
  destruct (netgeometry (EdgeKey e) _) as [g|err]; simpl; [|discriminate].
  by intros [= <-].
Qed.

(** X10: when [write_shp] returns, the output directory holds exactly
    two layers, "nodes" and then "edges", both without fields; "nodes"
    has one feature per node of the graph and "edges" one per edge, and
    every feature has a geometry and no field value: no attribute of the
    graph is written. *)
Theorem write_shp_output (outdir : string) (s s' : State) :
  write_shp outdir s = (Ok tt, s') →
  ∃ fn fe,
    fs s' !! outdir = Some [mkLayer "nodes" [] fn; mkLayer "edges" [] fe]
    ∧ length fn = size (node (graph s))
    ∧ length fe = size (edge (graph s))
    ∧ ∀ f, f ∈ fn ++ fe → fvalues f = [] ∧ is_Some (geometry f).
Proof.
  intros Hrun. unfold write_shp in Hrun.
  apply bind_Ok_inv in Hrun as ([] & s0 & Himp & Hrun).
  assert (s0 = s) as ->.
  { unfold import_ogr in Himp. destruct (ogr_importable s); congruence. }
  apply bind_Ok_inv in Hrun as ([] & sa & Hds & Hrun).
  apply CreateDataSource_Ok_inv in Hds as [Hfresh ->].
  rewrite (bind_Ok _ _ _ _ _
    (CreateLayer_run outdir "nodes" _ [] (lookup_insert_eq _ _ _))) in Hrun.
  simpl app in Hrun. simpl length in Hrun.
  rewrite bind_gets in Hrun.
  apply bind_Ok_inv in Hrun as ([] & sc & Hnodes & Hrun).
  set (G := graph s) in *.
  destruct (write_loop_Ok _ _ (node_feature G) G outdir 0%nat
              (λ x s0 s1, node_step_Ok G outdir 0%nat x s0 s1)
              _ _ [mkLayer "nodes" [] []] "nodes" [] [] Hnodes eq_refl
              (lookup_insert_eq _ _ _) eq_refl) as [HGc Hfsc].
  simpl in Hfsc.
  assert (Hsc : fs sc !! outdir
                = Some [mkLayer "nodes" []
                          (map (node_feature G) (map_to_list (node G)).*1)]).
  { rewrite Hfsc. apply lookup_insert_eq. }
  rewrite (bind_Ok _ _ _ _ _ (CreateLayer_run outdir "edges" sc _ Hsc)) in Hrun.
  simpl app in Hrun. simpl length in Hrun.
  rewrite bind_gets in Hrun.
  destruct (write_loop_Ok _ _ (edge_feature G) G outdir 1%nat
              (λ x s0 s1, edge_step_Ok G outdir 1%nat x s0 s1)
              _ _ [mkLayer "nodes" []
                     (map (node_feature G) (map_to_list (node G)).*1);
                   mkLayer "edges" [] []] "edges" [] [] Hrun HGc
              (lookup_insert_eq _ _ _) eq_refl) as [HGe Hfse].
  simpl in Hfse.
  exists (map (node_feature G) (map_to_list (node G)).*1),
         (map (edge_feature G) (map_to_list (edge G)).*1).
  split; [|split; [|split]].
  - rewrite Hfse, lookup_insert_eq. by rewrite HGc.
  - by rewrite length_map, length_fmap, length_map_to_list.
  - by rewrite length_map, length_fmap, length_map_to_list.
  - intros f Hf. apply elem_of_app in Hf as [Hf|Hf];
      apply list_elem_of_In, in_map_iff in Hf as (x & <- & _);
      (split; [reflexivity|by eexists]).
Qed.

(** *** Nodes that carry attributes *)

(** A loop raises [e] when one of its elements always does and the
    others either do too or go on. *)
Lemma for_each_raises {A} (l : list A) (body : A → M unit) (e : exn)
    (Inv : State → Prop) :
  (∀ x s, x ∈ l → Inv s →
     (body x s).1 = Raise e ∨ ((body x s).1 = Ok tt ∧ Inv (body x s).2)) →
  (∃ x, x ∈ l ∧ ∀ s, Inv s → (body x s).1 = Raise e) →
  ∀ s, Inv s → (for_each l body s).1 = Raise e.
Proof.
  induction l as [|x l IH]; intros Hstep (x0 & Hin & Hbad) s HI.
  - by apply elem_of_nil in Hin.
  - simpl. unfold bind.
    pose proof (Hstep x s (list_elem_of_here _ _) HI) as Hx.
    destruct (body x s) as [[[]|e'] s1] eqn:Hb; simpl in *.
    + destruct Hx as [Hx|[_ HI1]]; [discriminate|].
      apply IH; [| |exact HI1].
      * intros y s2 Hy. apply Hstep. by right.
      * apply elem_of_cons in Hin as [->|Hin].
        -- specialize (Hbad s HI). rewrite Hb in Hbad. discriminate.
        -- by exists x0.
    + destruct Hx as [Hx|[Hx _]]; [exact Hx|discriminate].
Qed.

(** X11: a graph with a node that carries attributes cannot be written.
    When no attribute value of a node is a dictionary and some node has
    a mapping that is not empty, [write_shp] into a fresh directory
    raises [AttributeError] while it goes through the nodes. *)
Theorem write_shp_attributed_node (outdir : string) (s : State) :
  ogr_importable s = true → fs s !! outdir = None →
  (∀ n a k d, node (graph s) !! n = Some a → a !! k ≠ Some (VDict d)) →
  (∃ n a, node (graph s) !! n = Some a ∧ a ≠ ∅) →
  (write_shp outdir s).1 = Raise AttributeError.
Proof.
  intros Hogr Hfresh Hscalar (n0 & a0 & Hn0 & Ha0). unfold write_shp.
  rewrite (bind_Ok _ _ s tt s) by (unfold import_ogr; by rewrite Hogr).
  set (sa := set_fs (<[outdir := []]> (fs s)) (log (ACreateDataSource outdir) s)).
  rewrite (bind_Ok _ _ s tt sa)
    by (unfold CreateDataSource, bind, modify, gets; simpl; by rewrite Hfresh).
  rewrite (bind_Ok _ _ _ _ _ (CreateLayer_run outdir "nodes" sa []
                                (lookup_insert_eq _ _ _))).
  rewrite bind_gets. simpl length.
  match goal with |- context [bind (for_each ?l ?b) _ ?st] =>
    pose proof (for_each_raises l b AttributeError
                  (λ s0, graph s0 = graph s)) as Hloop;
    destruct (for_each l b st) as [r sc] eqn:Hrun end.
  assert (r = Raise AttributeError) as ->.
  { change r with (r, sc).1. rewrite <- Hrun. apply Hloop; [| |reflexivity].
    - intros n s0 Hn HG0. change (graph _) with (graph s) in Hn.
      apply elem_of_keys in Hn as [a Ha].
      unfold G_node, bind, gets, lift. rewrite HG0, Ha. simpl.
      destruct (map_to_list a) as [|kv rest] eqn:Hlist.
      + apply map_to_list_empty_iff in Hlist as ->.
        rewrite values_or_empty_empty.
        rewrite netgeometry_node_no_encoding by apply lookup_empty.
        right. simpl. by split.
      + left. rewrite netgeometry_node_with_attributes; [done| |].
        * intros ->. by rewrite map_to_list_empty in Hlist.
        * intros k d. by apply (Hscalar n).
    - exists n0. split.
      + change (graph _) with (graph s). apply elem_of_keys. by eexists.
      + intros s0 HG0. unfold G_node, bind, gets, lift. rewrite HG0, Hn0. simpl.
        rewrite netgeometry_node_with_attributes; [done|done|].
        intros k d. by apply (Hscalar n0). }
  by rewrite (bind_Raise _ _ _ _ _ Hrun).
Qed.

(** *** What the graph read depends on *)

Lemma addlyr_feature_graph_only lyr fields f s t :
  graph s = graph t →
  (addlyr_feature lyr fields f s).1 = (addlyr_feature lyr fields f t).1
  ∧ graph (addlyr_feature lyr fields f s).2
    = graph (addlyr_feature lyr fields f t).2.
Proof.
  intros HG. unfold addlyr_feature.
  destruct (geometry f) as [g|]; [|done].
  unfold bind, lift, ret, add_node, add_edge, modify.
  destruct (decide (GetGeometryType g = wkbPoint)),
    (decide (GetGeometryType g = wkbLineString));
    repeat (destruct (GetPoint_2D g _)); simpl; rewrite ?HG; done.
Qed.

Lemma for_each_graph_only {A} (l : list A) (body : A → M unit) :
  (∀ x s t, graph s = graph t →
     (body x s).1 = (body x t).1 ∧ graph (body x s).2 = graph (body x t).2) →
  ∀ s t, graph s = graph t →
    (for_each l body s).1 = (for_each l body t).1
    ∧ graph (for_each l body s).2 = graph (for_each l body t).2.
Proof.
  intros Hbody. induction l as [|x l IH]; intros s t HG; simpl; [done|].
  unfold bind. destruct (Hbody x s t HG) as [Hr Hg].
  destruct (body x s) as [[[]|e] s1], (body x t) as [[[]|e'] t1]; simpl in *;
    try discriminate.
  - by apply IH.
  - done.
Qed.

(** X12: the graph [read_shp] returns, or the error it raises, depends
    on the data source at the path and on nothing else in the state:
    not on other paths, not on the accesses made before, not on a graph
    built before.  Reading the path again, or after writing to another
    directory, gives the same. *)
Theorem read_shp_depends_on_source (path : string) (s t : State) :
  ogr_importable s = ogr_importable t → fs s !! path = fs t !! path →
  (read_shp (PyStr path) s).1 = (read_shp (PyStr path) t).1.
Proof.
  intros Hogr Hfs.
  destruct (ogr_importable s) eqn:Hs.
  - symmetry in Hogr. destruct (fs s !! path) as [shp|] eqn:Hp.
    + symmetry in Hfs.
      rewrite (read_shp_found path s shp Hs Hp),
        (read_shp_found path t shp Hogr Hfs).
      unfold bind, gets.
      destruct (for_each_graph_only shp (λ lyr, addlyr lyr (schema lyr)))
        with (s := log (AOpen path) (set_graph empty_DiGraph s))
             (t := log (AOpen path) (set_graph empty_DiGraph t))
        as [Hr Hg]; [|reflexivity|].
      { intros lyr s0 t0 HG. unfold addlyr. apply for_each_graph_only; [|done].
        intros f. apply addlyr_feature_graph_only. }
      destruct (for_each shp _ (log (AOpen path) (set_graph empty_DiGraph s)))
        as [[[]|e] s1],
        (for_each shp _ (log (AOpen path) (set_graph empty_DiGraph t)))
        as [[[]|e'] t1]; simpl in *; try discriminate; congruence.
    + symmetry in Hfs.
      by rewrite (read_shp_not_found path s Hs Hp),
        (read_shp_not_found path t Hogr Hfs).
  - unfold read_shp, bind, import_ogr. rewrite Hs, <- Hogr. done.
Qed.

End further_properties.

(** ** The further properties on concrete inputs *)

Lemma write_shp_other_paths_witness :
  "in" ≠ "out"
  ∧ fs (@write_shp digits_codec "out" (disk "in" [roads])).2 !! "in"
    = fs (disk "in" [roads]) !! "in".
Proof.
  split; [discriminate|].
  apply (@write_shp_other_paths_untouched digits_codec "out" "in"). discriminate.
Defined.

Lemma write_shp_taken_path_witness :
  (ogr_importable taken = true ∧ fs taken !! "out" = Some [roads])
  ∧ @write_shp digits_codec "out" taken
    = (Raise LibraryError, log (ACreateDataSource "out") taken).
Proof.
  split; [split; reflexivity|].
  apply (@write_shp_taken_path digits_codec "out" [roads] taken); reflexivity.
Defined.

Lemma netgeometry_binary_first_witness :
  both_encodings !! "Wkb" = Some (VStr (@ExportToWkb digits_codec segment))
  ∧ @netgeometry digits_codec (NodeKey origin) (VDict both_encodings)
    = match @CreateGeometryFromWkb digits_codec
              (@ExportToWkb digits_codec segment) with
      | Some g => Ok g
      | None => Raise LibraryError
      end.
Proof.
  split; [reflexivity|].
  apply (@netgeometry_binary_first digits_codec). reflexivity.
Defined.

(** There the node key gets the stored line, not a point. *)
Example netgeometry_binary_first_run :
  @netgeometry digits_codec (NodeKey origin) (VDict both_encodings)
  = Ok segment.
Proof. vm_compute. reflexivity. Qed.

Lemma netgeometry_text_second_witness :
  (text_encoding !! "Wkb" = None
   ∧ text_encoding !! "Wkt"
     = Some (VStr (@ExportToWkt digits_codec bent_line)))
  ∧ @netgeometry digits_codec (EdgeKey (origin, p22)) (VDict text_encoding)
    = match @CreateGeometryFromWkt digits_codec
              (@ExportToWkt digits_codec bent_line) with
      | Some g => Ok g
      | None => Raise LibraryError
      end.
Proof.
  split; [split; reflexivity|].
  apply (@netgeometry_text_second digits_codec); reflexivity.
Defined.

Lemma attribute_of_column_witness :
  (NoDup (schema towns) ∧ schema towns !! 0%nat = Some "name"
   ∧ "name" ≠ "ShpName")
  ∧ feature_attributes towns (schema towns)
      (mkFeature [VStr "x"] (Some origin_point)) !! "name"
    = Some (default VNone
              (fvalues (mkFeature [VStr "x"] (Some origin_point)) !! 0%nat)).
Proof.
  assert (Hnd : NoDup (schema towns)) by apply NoDup_singleton.
  split; [split; [exact Hnd|split; [reflexivity|discriminate]]|].
  apply (attribute_of_column towns _ 0%nat "name" Hnd); [reflexivity|discriminate].
Defined.

Lemma feature_without_geometry_witness :
  geometry bare_feature = None
  ∧ for_each [] (@addlyr_feature digits_codec
                   (mkLayer "towns" ["name"]
                      ([] ++ bare_feature :: [mkFeature [VStr "x"]
                                                (Some origin_point)]))
                   ["name"])
      (fresh empty_DiGraph) = (Ok tt, fresh empty_DiGraph)
  ∧ @addlyr digits_codec
      (mkLayer "towns" ["name"]
         ([] ++ bare_feature :: [mkFeature [VStr "x"] (Some origin_point)]))
      ["name"] (fresh empty_DiGraph)
    = (Raise AttributeError, fresh empty_DiGraph).
Proof.
  split; [reflexivity|]. split; [reflexivity|].
  apply (@feature_without_geometry_stops digits_codec "towns" ["name"] ["name"]
           [] [mkFeature [VStr "x"] (Some origin_point)] bare_feature
           (fresh empty_DiGraph) (fresh empty_DiGraph));
    reflexivity.
Defined.

Lemma read_shp_nodes_and_edges_witness :
  (@read_shp digits_codec (PyStr "in") (disk "in" [bends])
   = (Ok (graph bends_read.2), bends_read.2)
   ∧ fs (disk "in" [bends]) !! "in" = Some [bends])
  ∧ ((∀ e, e ∈ dom (edge (graph bends_read.2))
           ↔ ∃ f, feature_of [bends] f ∧ line_from_to e f)
     ∧ (∀ n, n ∈ dom (node (graph bends_read.2))
             ↔ ∃ f, feature_of [bends] f ∧ node_from n f)).
Proof.
  assert (Hread : @read_shp digits_codec (PyStr "in") (disk "in" [bends])
                  = (Ok (graph bends_read.2), bends_read.2))
    by (vm_compute; reflexivity).
  split; [split; [exact Hread|reflexivity]|].
  exact (@read_shp_nodes_and_edges digits_codec "in" [bends]
           (disk "in" [bends]) bends_read.2 (graph bends_read.2)
           Hread eq_refl).
Defined.

Lemma read_shp_edges_witness :
  (@read_shp digits_codec (PyStr "in") (disk "in" [bends])
   = (Ok (graph bends_read.2), bends_read.2)
   ∧ fs (disk "in" [bends]) !! "in" = Some [bends]
   ∧ edge (graph bends_read.2) !! (origin, p22) = Some bends_edge_attributes)
  ∧ ∃ lyr f g, lyr ∈ [bends] ∧ f ∈ features lyr ∧ geometry f = Some g
      ∧ GetGeometryType g = wkbLineString
      ∧ GetPoint_2D g 0 = Ok (origin, p22).1
      ∧ GetPoint_2D g (GetPointCount g - 1) = Ok (origin, p22).2
      ∧ bends_edge_attributes !! "Wkb"
        = Some (VStr (@ExportToWkb digits_codec g))
      ∧ bends_edge_attributes !! "Wkt"
        = Some (VStr (@ExportToWkt digits_codec g))
      ∧ bends_edge_attributes !! "Json"
        = Some (VStr (@ExportToJson digits_codec g))
      ∧ bends_edge_attributes !! "ShpName" = Some (VStr (GetName lyr)).
Proof.
  assert (Hread : @read_shp digits_codec (PyStr "in") (disk "in" [bends])
                  = (Ok (graph bends_read.2), bends_read.2))
    by (vm_compute; reflexivity).
  assert (Hedge : edge (graph bends_read.2) !! (origin, p22)
                  = Some bends_edge_attributes)
    by (vm_compute; reflexivity).
  split; [split; [exact Hread|split; [reflexivity|exact Hedge]]|].
  exact (@read_shp_edges_carry_geometry digits_codec "in" [bends]
           (disk "in" [bends]) bends_read.2 (graph bends_read.2)
           (origin, p22) bends_edge_attributes Hread eq_refl Hedge).
Defined.

Lemma write_shp_output_witness :
  @write_shp digits_codec "out" roads_read.2 = (Ok tt, roads_written.2)
  ∧ ∃ fn fe,
      fs roads_written.2 !! "out"
      = Some [mkLayer "nodes" [] fn; mkLayer "edges" [] fe]
      ∧ length fn = size (node (graph roads_read.2))
      ∧ length fe = size (edge (graph roads_read.2))
      ∧ ∀ f, f ∈ fn ++ fe → fvalues f = [] ∧ is_Some (geometry f).
Proof.
  assert (Hrun : @write_shp digits_codec "out" roads_read.2
                 = (Ok tt, roads_written.2))
    by (vm_compute; reflexivity).
  split; [exact Hrun|].
  exact (@write_shp_output digits_codec "out" roads_read.2 roads_written.2 Hrun).
Defined.

Lemma write_shp_attributed_node_witness :
  (ogr_importable (fresh point_graph) = true
   ∧ fs (fresh point_graph) !! "out" = None
   ∧ (∀ n a k d, node (graph (fresh point_graph)) !! n = Some a →
                 a !! k ≠ Some (VDict d))
   ∧ (∃ n a, node (graph (fresh point_graph)) !! n = Some a ∧ a ≠ ∅))
  ∧ (@write_shp digits_codec "out" (fresh point_graph)).1
    = Raise AttributeError.
Proof.
  assert (Hscalar : ∀ n a k d, node (graph (fresh point_graph)) !! n = Some a →
                               a !! k ≠ Some (VDict d)).
  { intros n a k d Hn. simpl in Hn.
    apply lookup_insert_Some in Hn as [[_ <-]|[_ Hn]];
      [|by rewrite lookup_empty in Hn].
    destruct (decide (k = "ShpName")) as [->|Hne].
    - by rewrite lookup_singleton_eq.
    - by rewrite lookup_singleton_ne. }
  assert (Hsome : ∃ n a, node (graph (fresh point_graph)) !! n = Some a ∧ a ≠ ∅).
  { exists origin, {["ShpName" := VStr "pts"]}. split; [reflexivity|].
    apply map_non_empty_singleton. }
  split; [split; [reflexivity|split; [reflexivity|split; assumption]]|].
  exact (@write_shp_attributed_node digits_codec "out" (fresh point_graph)
           eq_refl eq_refl Hscalar Hsome).
Defined.

Lemma read_shp_depends_on_source_witness :
  (ogr_importable (disk "in" [roads]) = ogr_importable roads_written.2
   ∧ fs (disk "in" [roads]) !! "in" = fs roads_written.2 !! "in")
  ∧ (@read_shp digits_codec (PyStr "in") (disk "in" [roads])).1
    = (@read_shp digits_codec (PyStr "in") roads_written.2).1.
Proof.
  assert (Hogr : ogr_importable (disk "in" [roads])
                 = ogr_importable roads_written.2)
    by (vm_compute; reflexivity).
  assert (Hfs : fs (disk "in" [roads]) !! "in" = fs roads_written.2 !! "in")
    by (vm_compute; reflexivity).
  split; [split; assumption|].
  exact (@read_shp_depends_on_source digits_codec "in" (disk "in" [roads])
           roads_written.2 Hogr Hfs).
Defined.

(** C7 as stated fails where a field has the name of a synthetic entry
    or of another field.  [read_shp] returns on each of the three
    layers.  A field called [ShpName] leaves one entry, not two, and it
    holds the layer's name, not the field's value; of two fields called
    [a] one entry stays, with the value of the first; a field called
    [Wkb] of a line layer leaves four entries, not five, and its entry
    holds the encoding of the geometry. *)
Lemma fields_hidden_by_name :
  (named_read.1 = Ok (graph named_read.2)
   ∧ node (graph named_read.2) !! origin
     = Some (<["ShpName" := VStr "pts"]> ∅)
   ∧ ¬ one_entry_per_field named named_feature 1
         (<["ShpName" := VStr "pts"]> ∅))
  ∧ (twice_read.1 = Ok (graph twice_read.2)
     ∧ node (graph twice_read.2) !! origin
       = Some (<["ShpName" := VStr "pts"]> {["a" := VInt 1]})
     ∧ ¬ one_entry_per_field twice twice_feature 1
           (<["ShpName" := VStr "pts"]> {["a" := VInt 1]}))
  ∧ (coded_read.1 = Ok (graph coded_read.2)
     ∧ edge (graph coded_read.2) !! (origin, p11)
       = Some (@line_attributes digits_codec segment
                 (<["ShpName" := VStr "lines"]> ∅))
     ∧ ¬ one_entry_per_field coded coded_feature 4
           (@line_attributes digits_codec segment
              (<["ShpName" := VStr "lines"]> ∅))).
Proof.
  split; [|split].
  - split; [vm_compute; reflexivity|]. split; [vm_compute; reflexivity|].
    intros [Hsize _]. vm_compute in Hsize. discriminate.
  - split; [vm_compute; reflexivity|]. split; [vm_compute; reflexivity|].
    intros [Hsize _]. vm_compute in Hsize. discriminate.
  - split; [vm_compute; reflexivity|]. split; [vm_compute; reflexivity|].
    intros [Hsize _]. vm_compute in Hsize. discriminate.
Qed.

(** In each of the three the value of a field is not in the mapping
    under the field's name either. *)
Example fields_hidden_values :
  (<["ShpName" := VStr "pts"]> (∅ : attrs)) !! "ShpName" ≠ Some (VStr "v")
  ∧ (<["ShpName" := VStr "pts"]> ({["a" := VInt 1]} : attrs)) !! "a"
    ≠ Some (VInt 2)
  ∧ @line_attributes digits_codec segment (<["ShpName" := VStr "lines"]> ∅)
      !! "Wkb" ≠ Some (VStr "v").
Proof.
  split; [|split]; intros H; vm_compute in H; discriminate.
Qed.

